(** * Brewy release-notes formatter: [.github/format-release-notes.py]

    A shallow embedding of the script and the properties of its parser,
    its two renderers and its command line.

    Text is modelled as [string] over the code points 0..255 (Latin-1);
    the character classes below are the ones Python's [str] methods and
    its [re] module use on those code points. *)

From Stdlib Require Import Strings.String Strings.Ascii Lists.List Bool.Bool
  Arith.Arith NArith.NArith micromega.Lia.
Import ListNotations.

Local Open Scope list_scope.
Local Open Scope string_scope.

(* ================================================================= *)
(** ** Characters *)

Module Chars.

Definition code (c : ascii) : N := N_of_ascii c.

Definition between (lo hi : N) (c : ascii) : bool :=
  ((lo <=? code c) && (code c <=? hi))%N.

Definition LF : ascii := ascii_of_nat 10.
Definition CR : ascii := ascii_of_nat 13.
Definition TAB : ascii := ascii_of_nat 9.
Definition DQUOTE : ascii := ascii_of_nat 34.

(** [str.isspace] on one character, which is also the class [\s] of a
    [str] pattern: TAB LF VT FF CR, FS GS RS US, space, NEL and NBSP. *)
Definition is_space (c : ascii) : bool :=
  between 9 13 c || between 28 32 c
  || (code c =? 133)%N || (code c =? 160)%N.

(** [\S] *)
Definition is_nonspace (c : ascii) : bool := negb (is_space c).

(** [[a-z]] *)
Definition is_lower (c : ascii) : bool := between 97 122 c.

(** [[A-Z]] *)
Definition is_upper (c : ascii) : bool := between 65 90 c.

(** The class [\w] of a [str] pattern: alphanumeric or underscore. *)
Definition is_word (c : ascii) : bool :=
  between 48 57 c || between 65 90 c || between 97 122 c
  || (code c =? 95)%N
  || (code c =? 170)%N || (code c =? 178)%N || (code c =? 179)%N
  || (code c =? 181)%N || (code c =? 185)%N || (code c =? 186)%N
  || between 188 190 c
  || between 192 214 c || between 216 246 c || between 248 255 c.

(** [[\w-]] *)
Definition is_name (c : ascii) : bool := is_word c || (code c =? 45)%N.

(** [.] without DOTALL: anything but a line feed. *)
Definition is_dot (c : ascii) : bool := negb (code c =? 10)%N.

(** [[^)]] *)
Definition is_not_rparen (c : ascii) : bool := negb (code c =? 41)%N.

(** The line boundaries of [str.splitlines]. *)
Definition is_linebreak (c : ascii) : bool :=
  between 10 13 c || between 28 30 c || (code c =? 133)%N.

End Chars.
Import Chars.

(* ================================================================= *)
(** ** Strings *)

Module Str.

Definition LF : string := String Chars.LF "".

Fixpoint all (p : ascii -> bool) (s : string) : bool :=
  match s with
  | "" => true
  | String c s' => p c && all p s'
  end.

(** What is left of [s] when it starts with [pre]. *)
Fixpoint strip_prefix (pre s : string) : option string :=
  match pre, s with
  | "", _ => Some s
  | String a pre', String b s' =>
      if Ascii.eqb a b then strip_prefix pre' s' else None
  | String _ _, "" => None
  end.

Fixpoint take (n : nat) (s : string) : string :=
  match n, s with
  | S n', String c s' => String c (take n' s')
  | _, _ => ""
  end.

(** [str.lstrip()] *)
Fixpoint lstrip (s : string) : string :=
  match s with
  | "" => ""
  | String c s' => if is_space c then lstrip s' else s
  end.

(** [str.rstrip()] *)
Fixpoint rstrip (s : string) : string :=
  match s with
  | "" => ""
  | String c s' =>
      match rstrip s' with
      | "" => if is_space c then "" else String c ""
      | r => String c r
      end
  end.

(** [str.strip()] *)
Definition strip (s : string) : string := rstrip (lstrip s).

(** [str.splitlines()]: the lines without their boundaries; CR LF is one
    boundary, and a final boundary opens no empty last line. *)
Fixpoint splitlines (s : string) : list string :=
  match s with
  | "" => []
  | String c s' =>
      if is_linebreak c then
        "" :: (if Ascii.eqb c Chars.CR
               then match s' with
                    | String c' s'' =>
                        if Ascii.eqb c' Chars.LF then splitlines s''
                        else splitlines s'
                    | "" => []
                    end
               else splitlines s')
      else
        match splitlines s' with
        | [] => [String c ""]
        | l :: ls => String c l :: ls
        end
  end.

(** [str.replace(old, new)] for a one-character [old]. *)
Fixpoint replace (old : ascii) (new : string) (s : string) : string :=
  match s with
  | "" => ""
  | String c s' =>
      if Ascii.eqb c old then new ++ replace old new s'
      else String c (replace old new s')
  end.

(** [sep.join(parts)] *)
Definition join (sep : string) (parts : list string) : string :=
  String.concat sep parts.

(** [str.startswith(pre)] *)
Definition startswith (pre s : string) : bool :=
  match strip_prefix pre s with Some _ => true | None => false end.

(** [stops p s]: [s] does not go on with a character of the class [p]. *)
Definition stops (p : ascii -> bool) (s : string) : bool :=
  match s with
  | "" => true
  | String c _ => negb (p c)
  end.

End Str.
Import Str.

(* ================================================================= *)
(** ** The fragment of Python's [re] the script uses

    A backtracking matcher in continuation-passing style.  The order in
    which alternatives are tried is Python's: a greedy repeat tries the
    longest run first, a lazy one the shortest, and an optional group is
    tried before it is skipped.  The first complete match found is the
    match. *)

Module Re.

Inductive regex : Type :=
| Bol                                   (* ^ *)
| Eol                                   (* $ *)
| Lit (text : string)                   (* literal characters *)
| Rep (greedy : bool) (lo : nat) (cls : ascii -> bool)
                                        (* cls{lo,} or cls{lo,}? *)
| Seq (r1 r2 : regex)                   (* r1 r2 *)
| Opt (r : regex)                       (* (?:r)? *)
| Group (name : string) (r : regex).    (* (?P<name>r) *)

Declare Scope regex_scope.
Delimit Scope regex_scope with re.
Bind Scope regex_scope with regex.
Infix "+>" := Seq (at level 61, right associativity) : regex_scope.

(** [cls+], [cls*], [cls+?] *)
Definition plus (cls : ascii -> bool) : regex := Rep true 1 cls.
Definition star (cls : ascii -> bool) : regex := Rep true 0 cls.
Definition plus_lazy (cls : ascii -> bool) : regex := Rep false 1 cls.

(** The named groups of a match: the most recent capture comes first. *)
Definition groups : Type := list (string * string).

(** [Match.group(name)]: [None] for a group that took no part. *)
Fixpoint group (m : groups) (name : string) : option string :=
  match m with
  | [] => None
  | (n, v) :: m' => if String.eqb n name then Some v else group m' name
  end.

(** [$] without MULTILINE: the end, or just before a final line feed. *)
Definition at_end (s : string) : bool :=
  match s with
  | "" => true
  | String c "" => Ascii.eqb c Chars.LF
  | _ => false
  end.

(** The text between two positions, each given by what is left to read. *)
Definition taken (s s' : string) : string :=
  take (String.length s - String.length s') s.

Section Exec.
Context {A : Type}.

Fixpoint rep_greedy (cls : ascii -> bool) (lo : nat) (s : string)
    (k : string -> option A) : option A :=
  match s with
  | String c s' =>
      if cls c then
        match rep_greedy cls (Nat.pred lo) s' k with
        | Some x => Some x
        | None => if Nat.eqb lo 0 then k s else None
        end
      else if Nat.eqb lo 0 then k s else None
  | "" => if Nat.eqb lo 0 then k s else None
  end.

Fixpoint rep_lazy (cls : ascii -> bool) (lo : nat) (s : string)
    (k : string -> option A) : option A :=
  match (if Nat.eqb lo 0 then k s else None) with
  | Some x => Some x
  | None =>
      match s with
      | String c s' =>
          if cls c then rep_lazy cls (Nat.pred lo) s' k else None
      | "" => None
      end
  end.

(** [exec n r s m k]: match [r] at the point of a subject of length
    [n] where [s] is left to read, with the groups [m] set so far,
    and go on with [k]. *)
Fixpoint exec (n : nat) (r : regex) (s : string) (m : groups)
    (k : string -> groups -> option A) : option A :=
  match r with
  | Bol => if Nat.eqb (String.length s) n then k s m else None
  | Eol => if at_end s then k s m else None
  | Lit text =>
      match strip_prefix text s with
      | Some s' => k s' m
      | None => None
      end
  | Rep true lo cls => rep_greedy cls lo s (fun s' => k s' m)
  | Rep false lo cls => rep_lazy cls lo s (fun s' => k s' m)
  | Seq r1 r2 => exec n r1 s m (fun s' m' => exec n r2 s' m' k)
  | Opt r =>
      match exec n r s m k with
      | Some x => Some x
      | None => k s m
      end
  | Group name r =>
      exec n r s m (fun s' m' => k s' ((name, taken s s') :: m'))
  end.
End Exec.

(** [Pattern.match(s)]: a match at the start of [s], which need not
    reach its end. *)
Definition re_match (r : regex) (s : string) : option groups :=
  exec (String.length s) r s [] (fun _ m => Some m).

(** [matches n r s m s' m']: the pattern [r] allows the cut of [s] that
    leaves [s'], and turns the groups [m] into [m'], whatever the order of
    the search. *)
Fixpoint matches (n : nat) (r : regex) (s : string) (m : groups)
    (s' : string) (m' : groups) : Prop :=
  match r with
  | Bol => s' = s /\ m' = m /\ String.length s = n
  | Eol => s' = s /\ m' = m /\ at_end s = true
  | Lit text => s = text ++ s' /\ m' = m
  | Rep _ lo cls =>
      m' = m /\ exists a, s = a ++ s' /\ all cls a = true /\ lo <= String.length a
  | Seq r1 r2 =>
      exists s1 m1, matches n r1 s m s1 m1 /\ matches n r2 s1 m1 s' m'
  | Opt r => matches n r s m s' m' \/ (s' = s /\ m' = m)
  | Group name r =>
      exists m1, matches n r s m s' m1 /\ m' = (name, taken s s') :: m1
  end.

End Re.
Import Re.

(* ================================================================= *)
(** ** The script *)

(** A Python computation: a value or an uncaught exception. *)
Inductive py (A : Type) : Type :=
| Ok (a : A)
| Raise (exc : string).
Arguments Ok {A} a.
Arguments Raise {A} exc.

Definition bind {A B : Type} (c : py A) (f : A -> py B) : py B :=
  match c with
  | Ok a => f a
  | Raise e => Raise e
  end.

Notation "x <- c ;; k" := (bind c (fun x => k))
  (at level 100, c at next level, right associativity).

(** [xs.append(x)] *)
Definition append {V : Type} (xs : list V) (x : V) : list V := (xs ++ [x])%list.

(** A [dict[str, V]]: the keys in insertion order. *)
Definition dict (V : Type) : Type := list (string * V).

(** [d.get(key)] *)
Fixpoint get {V : Type} (d : dict V) (key : string) : option V :=
  match d with
  | [] => None
  | (k, v) :: d' => if String.eqb k key then Some v else get d' key
  end.

(** [d.get(key, default)] *)
Definition get_default {V : Type} (d : dict V) (key : string) (default : V) : V :=
  match get d key with Some v => v | None => default end.

(** [d.values()] *)
Definition values {V : Type} (d : dict V) : list V := map snd d.

(** [d.setdefault(key, []).append(x)] *)
Fixpoint setdefault_append (d : dict (list string)) (key x : string)
    : dict (list string) :=
  match d with
  | [] => [(key, [x])]
  | (k, v) :: d' =>
      if String.eqb k key then (k, append v x) :: d'
      else (k, v) :: setdefault_append d' key x
  end.

(** [list(dict.fromkeys(xs))]: [xs] without the repeats, first ones kept. *)
Fixpoint fromkeys (seen xs : list string) : list string :=
  match xs with
  | [] => []
  | x :: xs' =>
      if existsb (String.eqb x) seen then fromkeys seen xs'
      else x :: fromkeys (x :: seen) xs'
  end.

Definition SECTIONS : dict string :=
  [ ("feat", "What's New");
    ("fix", "Fixes");
    ("perf", "Performance");
    ("refactor", "Under the Hood");
    ("docs", "Documentation");
    ("style", "Style");
    ("test", "Testing") ].

Definition SKIP_TYPES : list string := ["build"; "ci"; "chore"].

(** [x in SKIP_TYPES] *)
Definition in_set (x : string) (xs : list string) : bool :=
  existsb (String.eqb x) xs.

(** The six pieces of [PR_RE], as the source lays them out. *)
Definition PR_BULLET : regex := (Bol +> Lit "*" +> plus is_space)%re.
Definition PR_SCOPE : regex := (Lit "(" +> star is_not_rparen +> Lit ")")%re.
Definition PR_TYPE : regex :=
  (Group "type" (plus is_lower) +> Opt PR_SCOPE +> Lit ":" +> star is_space)%re.
Definition PR_DESC : regex := Group "desc" (plus_lazy is_dot).
Definition PR_BY : regex :=
  (plus is_space +> Lit "by" +> plus is_space +> Lit "@" +> plus is_name)%re.
Definition PR_IN : regex :=
  (plus is_space +> Lit "in" +> plus is_space +>
   Lit "http" +> Opt (Lit "s") +> Lit "://" +> plus is_nonspace)%re.
Definition PR_END : regex := (star is_space +> Eol)%re.

Definition PR_TAIL : regex := (Opt PR_BY +> Opt PR_IN +> PR_END)%re.

Definition PR_RE : regex :=
  (PR_BULLET +> Opt PR_TYPE +> PR_DESC +> PR_TAIL)%re.

Definition CHANGELOG_RE : regex :=
  (Bol +> Lit "**Full Changelog**:" +> star is_space +>
   Group "url" (Lit "http" +> Opt (Lit "s") +> Lit "://" +> plus is_nonspace))%re.

Definition sections : Type := dict (list string).

(** The state of the loop of [parse_notes]. *)
Definition notes : Type := (sections * option string)%type.

(** [x.strip()] for an [x] that may be [None]. *)
Definition strip_opt (x : option string) : py string :=
  match x with
  | Some s => Ok (strip s)
  | None => Raise "AttributeError"
  end.

(** [x or ""] *)
Definition or_empty (x : option string) : string :=
  match x with
  | Some s => s
  | None => ""
  end.

(** One turn of the loop of [parse_notes]. *)
Definition process_line (st : notes) (line : string) : py notes :=
  let '(secs, changelog_url) := st in
  let line := strip line in
  match re_match CHANGELOG_RE line with
  | Some changelog_match => Ok (secs, group changelog_match "url")
  | None =>
      match re_match PR_RE line with
      | None => Ok (secs, changelog_url)
      | Some pr_match =>
          let pr_type := or_empty (group pr_match "type") in
          desc <- strip_opt (group pr_match "desc") ;;
          if in_set pr_type SKIP_TYPES then Ok (secs, changelog_url)
          else
            let section := get_default SECTIONS pr_type "Other" in
            Ok (setdefault_append secs section desc, changelog_url)
      end
  end.

Fixpoint parse_lines (lines : list string) (st : notes) : py notes :=
  match lines with
  | [] => Ok st
  | line :: rest => st' <- process_line st line ;; parse_lines rest st'
  end.

Definition parse_notes (raw : string) : py notes :=
  parse_lines (splitlines raw) ([], None).

(** [ordered_keys], as both renderers build it. *)
Definition ordered_keys : list string :=
  append (fromkeys [] (values SECTIONS)) "Other".

(** [if x:] for a list that may be [None]. *)
Definition truthy_list {V : Type} (x : option (list V)) : bool :=
  match x with
  | Some (_ :: _) => true
  | _ => false
  end.

(** [if x:] for a string that may be [None]. *)
Definition truthy_str (x : option string) : bool :=
  match x with
  | Some (String _ _) => true
  | _ => false
  end.

(** The list [lines] of [format_markdown] when it is joined. *)
Definition markdown_lines (tag : string) (secs : sections)
    (changelog_url : option string) : list string :=
  let lines := ["## Brewy " ++ tag; ""] in
  let lines :=
    fold_left
      (fun lines heading =>
         let entries := get secs heading in
         if negb (truthy_list entries) then lines
         else
           let lines := append lines ("### " ++ heading) in
           let lines :=
             fold_left (fun lines entry => append lines ("- " ++ entry))
               (match entries with Some es => es | None => [] end) lines in
           append lines "")
      ordered_keys lines in
  if truthy_str changelog_url then
    append (append (append lines "---")
              ("**Full Changelog**: " ++ or_empty changelog_url)) ""
  else lines.

Definition format_markdown (tag : string) (secs : sections)
    (changelog_url : option string) : string :=
  join Str.LF (markdown_lines tag secs changelog_url).

(** [html.escape(s)] with its default [quote=True]. *)
Definition html_escape (s : string) : string :=
  let s := replace "&" "&amp;" s in
  let s := replace "<" "&lt;" s in
  let s := replace ">" "&gt;" s in
  let s := replace Chars.DQUOTE "&quot;" s in
  let s := replace "'" "&#x27;" s in
  s.

(** The list [parts] of [format_html] when it is joined. *)
Definition html_parts (tag : string) (secs : sections)
    (changelog_url : option string) : list string :=
  fold_left
    (fun parts heading =>
       let entries := get secs heading in
       if negb (truthy_list entries) then parts
       else
         let parts := append parts ("<h2>" ++ html_escape heading ++ "</h2>") in
         let parts := append parts "<ul>" in
         let parts :=
           fold_left
             (fun parts entry => append parts ("  <li>" ++ html_escape entry ++ "</li>"))
             (match entries with Some es => es | None => [] end) parts in
         append parts "</ul>")
    ordered_keys [].

Definition format_html (tag : string) (secs : sections)
    (changelog_url : option string) : string :=
  join Str.LF (html_parts tag secs changelog_url).

(** How a run of the script ends. *)
Inductive outcome : Type :=
| Exit (status : nat) (stdout stderr : string)
| Uncaught (exc : string).

(** [main], given [sys.argv] and what [Path(p).read_text()] does. *)
Definition main (argv : list string) (read_text : string -> py string) : outcome :=
  if Nat.ltb (List.length argv) 3 then
    match nth_error argv 0 with
    | None => Uncaught "IndexError"
    | Some prog =>
        Exit 1 "" ("Usage: " ++ prog ++ " <raw_notes_file> <tag> [--html]" ++ Str.LF)
    end
  else
    let run : py string :=
      raw <- read_text (nth 1 argv "") ;;
      let tag := nth 2 argv "" in
      let output_html := in_set "--html" argv in
      parsed <- parse_notes raw ;;
      let '(secs, changelog_url) := parsed in
      if output_html then Ok (format_html tag secs changelog_url ++ Str.LF)
      else Ok (format_markdown tag secs changelog_url ++ Str.LF) in
    match run with
    | Ok out => Exit 0 out ""
    | Raise e => Uncaught e
    end.


(* ================================================================= *)
(** ** The renderers, as their description words them

    These definitions follow the description of the output, block by
    block; the theorems below compare them with the loops of
    [format_markdown] and [format_html]. *)

Module Layout.

(** The headings in their fixed order. *)
Definition HEADINGS : list string :=
  [ "What's New"; "Fixes"; "Performance"; "Under the Hood";
    "Documentation"; "Style"; "Testing"; "Other" ].

(** A heading is populated when it has at least one entry. *)
Definition populated (secs : sections) (heading : string) : bool :=
  truthy_list (get secs heading).

Definition entries (secs : sections) (heading : string) : list string :=
  match get secs heading with
  | Some es => es
  | None => []
  end.

Definition md_title (tag : string) : string := "## Brewy " ++ tag.
Definition md_heading (heading : string) : string := "### " ++ heading.
Definition md_item (entry : string) : string := "- " ++ entry.

(** Plain markup: the heading line, a line per entry, a blank line. *)
Definition md_block (secs : sections) (heading : string) : list string :=
  if populated secs heading then
    ([md_heading heading] ++ map md_item (entries secs heading) ++ [""])%list
  else [].

(** Plain markup: the changelog lines, when there is a URL. *)
Definition md_changelog (changelog_url : option string) : list string :=
  match changelog_url with
  | Some (String c u) => ["---"; "**Full Changelog**: " ++ String c u; ""]
  | _ => []
  end.

Definition md_lines (tag : string) (secs : sections)
    (changelog_url : option string) : list string :=
  ([md_title tag; ""] ++ flat_map (md_block secs) HEADINGS
     ++ md_changelog changelog_url)%list.

(** The escape of one character. *)
Definition escape_char (c : ascii) : string :=
  if Ascii.eqb c "&" then "&amp;"
  else if Ascii.eqb c "<" then "&lt;"
  else if Ascii.eqb c ">" then "&gt;"
  else if Ascii.eqb c Chars.DQUOTE then "&quot;"
  else if Ascii.eqb c "'" then "&#x27;"
  else String c "".

Fixpoint escaped (s : string) : string :=
  match s with
  | "" => ""
  | String c s' => escape_char c ++ escaped s'
  end.

(** The characters that must not stand for themselves in escaped text. *)
Definition is_markup (c : ascii) : bool :=
  Ascii.eqb c "<" || Ascii.eqb c ">" || Ascii.eqb c Chars.DQUOTE
  || Ascii.eqb c "'".

Definition html_heading (heading : string) : string :=
  "<h2>" ++ escaped heading ++ "</h2>".
Definition html_item (entry : string) : string :=
  "  <li>" ++ escaped entry ++ "</li>".

(** HTML: the heading, the list opened, an item per entry, the list closed. *)
Definition html_block (secs : sections) (heading : string) : list string :=
  if populated secs heading then
    ([html_heading heading; "<ul>"] ++ map html_item (entries secs heading)
       ++ ["</ul>"])%list
  else [].

Definition html_lines (secs : sections) : list string :=
  flat_map (html_block secs) HEADINGS.

End Layout.

(* ================================================================= *)
(** ** The shapes of lines the properties speak of *)

Module Shapes.

(** An http(s) URL: the scheme and what follows [://]. *)
Definition http_url (secure : bool) (rest : string) : string :=
  "http" ++ (if secure then "s" else "") ++ "://" ++ rest.

(** The line [* <type>: <desc> by @<user> in <url>]. *)
Definition pr_line (type desc user url : string) : string :=
  "* " ++ type ++ ": " ++ desc ++ " by @" ++ user ++ " in " ++ url.

(** A scope in parentheses, or none. *)
Definition scope_text (scope : option string) : string :=
  match scope with
  | Some sc => "(" ++ sc ++ ")"
  | None => ""
  end.

(** A type prefix: the type, maybe a scope, and the colon. *)
Definition type_prefix (type : string) (scope : option string) : string :=
  type ++ scope_text scope ++ ":".

(** A scope without white space (and, as the pattern wants it, without a
    closing parenthesis). *)
Definition is_scope_char (c : ascii) : bool :=
  is_not_rparen c && is_nonspace c.

Definition plain_scope (scope : option string) : bool :=
  match scope with
  | Some sc => all is_scope_char sc
  | None => true
  end.

(** The line [**Full Changelog**:], white space, a URL, and more text. *)
Definition changelog_line (gap : string) (secure : bool) (rest more : string)
    : string :=
  "**Full Changelog**:" ++ gap ++ http_url secure rest ++ more.

(** A line that starts with an asterisk and a white space character. *)
Definition bullet_start (line : string) : bool :=
  match line with
  | String "*" (String c _) => is_space c
  | _ => false
  end.

(** The heading of a type, by the table of the description. *)
Definition heading_of (type : string) : string :=
  if String.eqb type "feat" then "What's New"
  else if String.eqb type "fix" then "Fixes"
  else if String.eqb type "perf" then "Performance"
  else if String.eqb type "refactor" then "Under the Hood"
  else if String.eqb type "docs" then "Documentation"
  else if String.eqb type "style" then "Style"
  else if String.eqb type "test" then "Testing"
  else "Other".

(** A line is a changelog line when its trimmed form matches
    [CHANGELOG_RE]; [captured_url] is the URL it gives. *)
Definition is_changelog (line : string) : bool :=
  match re_match CHANGELOG_RE (strip line) with
  | Some _ => true
  | None => false
  end.

Definition captured_url (line : string) : option string :=
  match re_match CHANGELOG_RE (strip line) with
  | Some m => group m "url"
  | None => None
  end.

Fixpoint last_line (lines : list string) : option string :=
  match lines with
  | [] => None
  | [line] => Some line
  | _ :: rest => last_line rest
  end.

(** The positional arguments of a command line, [raw_notes_file] and
    [tag]: the arguments after the name of the program that are not the
    flag [--html]. *)
Definition positional (args : list string) : list string :=
  filter (fun a => negb (String.eqb a "--html")) args.

End Shapes.
Import Shapes.

(* ================================================================= *)
(** ** Notions used in the proofs *)

Module Aux.

(** A pattern without capturing groups. *)
Fixpoint no_groups (r : regex) : bool :=
  match r with
  | Group _ _ => false
  | Seq r1 r2 => no_groups r1 && no_groups r2
  | Opt r => no_groups r
  | _ => true
  end.

(** The number of words of a string: its maximal runs of characters that
    are not white space.  [inside] says that a word is being read. *)
Fixpoint count_words (inside : bool) (s : string) : nat :=
  match s with
  | "" => 0
  | String c s' =>
      if is_space c then count_words false s'
      else (if inside then 0 else 1) + count_words true s'
  end.

Definition nwords (s : string) : nat := count_words false s.

(** A text without line boundaries: one line for [str.splitlines]. *)
Definition one_line (s : string) : bool :=
  all (fun c => negb (is_linebreak c)) s.

(** A string that is empty or starts with white space. *)
Definition space_first (s : string) : bool := stops is_nonspace s.

End Aux.
Import Aux.

(* ================================================================= *)
(** ** What the loop of [parse_notes] keeps *)

Module Account.

(** What one line adds to the sections: a heading and an entry, or
    nothing (a changelog line, a line that [PR_RE] does not match, a line
    of a skipped type). *)
Definition line_entry (line : string) : option (string * string) :=
  let line := strip line in
  match re_match CHANGELOG_RE line with
  | Some _ => None
  | None =>
      match re_match PR_RE line with
      | None => None
      | Some pr_match =>
          match group pr_match "desc" with
          | None => None
          | Some desc =>
              let pr_type := or_empty (group pr_match "type") in
              if in_set pr_type SKIP_TYPES then None
              else Some (get_default SECTIONS pr_type "Other", strip desc)
          end
      end
  end.

(** The headings and entries of the lines, in the order of the lines. *)
Definition stored (lines : list string) : list (string * string) :=
  flat_map (fun line => match line_entry line with
                        | Some p => [p]
                        | None => []
                        end) lines.

(** The entries that go under one heading, in their order. *)
Definition under (heading : string) (ps : list (string * string)) : list string :=
  map snd (filter (fun p => String.eqb (fst p) heading) ps).

(** The sections after the entries [ps] are added one by one. *)
Definition add_all (secs : sections) (ps : list (string * string)) : sections :=
  fold_left (fun secs p => setdefault_append secs (fst p) (snd p)) ps secs.

(** An entry as the parser stores it: not empty, trimmed, of one line. *)
Definition good_entry (e : string) : Prop :=
  e <> "" /\ strip e = e /\ one_line e = true.

(** A text that is empty or ends with a character that is not white space. *)
Definition tight_end (s : string) : Prop :=
  s = "" \/ exists b c, s = b ++ String c "" /\ is_space c = false.

(** The line [* <type>(<scope>): <desc> by @<user> in <url>], the scope
    being optional. *)
Definition pr_line_scoped (type : string) (scope : option string)
    (desc user url : string) : string :=
  "* " ++ type ++ scope_text scope ++ ": " ++ desc
    ++ " by @" ++ user ++ " in " ++ url.

(** A scope as the pattern takes it, on one line. *)
Definition scope_ok (scope : option string) : bool :=
  match scope with
  | Some sc => all is_not_rparen sc && one_line sc
  | None => true
  end.

(** A line over which the loop passes without a change. *)
Definition inert (line : string) : Prop :=
  forall st : notes, process_line st line = Ok st.

End Account.
Import Account.
(* ================================================================= *)
(** ** Lemmas on strings *)

Module StrFacts.

Lemma app_assoc (a b c : string) : (a ++ b) ++ c = a ++ b ++ c.
Proof. induction a as [|x a IH]; simpl; [reflexivity | now rewrite IH]. Qed.

(** Two spellings of one concatenation. *)
Ltac str_eq :=
  repeat (progress (rewrite ?app_assoc; simpl)); reflexivity.

Lemma app_empty_r (a : string) : a ++ "" = a.
Proof. induction a as [|x a IH]; simpl; [reflexivity | now rewrite IH]. Qed.

Lemma length_app (a b : string) :
  String.length (a ++ b) = String.length a + String.length b.
Proof. induction a as [|x a IH]; simpl; [reflexivity | now rewrite IH]. Qed.

Lemma all_app (p : ascii -> bool) (a b : string) :
  all p (a ++ b) = all p a && all p b.
Proof.
  induction a as [|x a IH]; simpl; [reflexivity|].
  now rewrite IH, andb_assoc.
Qed.

Lemma all_impl (p q : ascii -> bool) (s : string) :
  (forall c, p c = true -> q c = true) -> all p s = true -> all q s = true.
Proof.
  intros Hpq. induction s as [|c s IH]; simpl; [reflexivity|].
  intros H. apply andb_true_iff in H as [Hc Hs].
  now rewrite (Hpq c Hc), IH.
Qed.

Lemma strip_prefix_app (pre s : string) : strip_prefix pre (pre ++ s) = Some s.
Proof.
  induction pre as [|c pre IH]; simpl; [reflexivity|].
  now rewrite Ascii.eqb_refl.
Qed.

Lemma strip_prefix_some (pre s s' : string) :
  strip_prefix pre s = Some s' -> s = pre ++ s'.
Proof.
  revert s. induction pre as [|c pre IH]; intros s; simpl.
  - now intros [= ->].
  - destruct s as [|b s]; [discriminate|].
    destruct (Ascii.eqb_spec c b) as [->|]; [|discriminate].
    intros H. now rewrite (IH _ H).
Qed.

Lemma take_app (a b : string) : take (String.length a) (a ++ b) = a.
Proof. induction a as [|x a IH]; simpl; [now destruct b | now rewrite IH]. Qed.

Lemma taken_app (a b : string) : taken (a ++ b) b = a.
Proof.
  unfold taken. rewrite length_app.
  replace (String.length a + String.length b - String.length b)
    with (String.length a) by lia.
  apply take_app.
Qed.

Lemma app_inv_head (a b c : string) : a ++ b = a ++ c -> b = c.
Proof. induction a as [|x a IH]; simpl; [tauto | intros [= H]; auto]. Qed.

(** Two ways of cutting one string: one cut comes first. *)
Lemma app_eq_app (a b c d : string) :
  a ++ b = c ++ d ->
  (exists e, c = a ++ e /\ b = e ++ d) \/ (exists e, a = c ++ e /\ d = e ++ b).
Proof.
  revert c. induction a as [|x a IH]; intros c H.
  - left. exists c. split; [reflexivity | exact H].
  - destruct c as [|y c].
    + right. exists (String x a). split; [reflexivity | symmetry; exact H].
    + simpl in H. injection H as -> H.
      destruct (IH _ H) as [[e [-> ->]]|[e [-> ->]]].
      * left. now exists e.
      * right. now exists e.
Qed.

(** The longest run of [p] at the start of a string. *)
Lemma span (p : ascii -> bool) (s : string) :
  exists a b, s = a ++ b /\ all p a = true /\ stops p b = true.
Proof.
  induction s as [|c s (a & b & -> & Ha & Hb)].
  - exists "", "". auto.
  - destruct (p c) eqn:Hc.
    + exists (String c a), b. simpl. now rewrite Hc, Ha.
    + exists "", (String c (a ++ b)). simpl. now rewrite Hc.
Qed.

(** A run that stops where another run of the same class still goes on
    is the shorter one. *)
Lemma run_prefix (p : ascii -> bool) (a b c d : string) :
  a ++ b = c ++ d -> all p a = true -> stops p b = true -> all p c = true ->
  exists e, a = c ++ e /\ d = e ++ b.
Proof.
  intros H Ha Hb Hc.
  destruct (app_eq_app _ _ _ _ H) as [[e [-> ->]]|[e [-> ->]]].
  - destruct e as [|x e].
    + exists "". rewrite !app_empty_r. split; reflexivity.
    + rewrite all_app in Hc. simpl in Hc, Hb.
      apply andb_true_iff in Hc as [_ Hc]. apply andb_true_iff in Hc as [Hx _].
      now rewrite Hx in Hb.
  - now exists e.
Qed.

End StrFacts.
Import StrFacts.

(* ================================================================= *)
(** ** What the matcher finds

    The matcher finds a match exactly when [matches] allows one, and the
    lemmas on [rep_greedy] and [rep_lazy] say which one it finds first. *)

Module ReFacts.

Section Search.
Context {A : Type}.
Implicit Types (k : string -> option A) (cls : ascii -> bool).

Lemma rep_greedy_sound cls lo s k x :
  rep_greedy cls lo s k = Some x ->
  exists a s', s = a ++ s' /\ all cls a = true /\ lo <= String.length a
               /\ k s' = Some x.
Proof.
  revert lo. induction s as [|c s IH]; intros lo; simpl.
  - destruct (Nat.eqb_spec lo 0) as [->|]; [|discriminate].
    intros H. exists "", "". auto.
  - assert (Hhere : (if Nat.eqb lo 0 then k (String c s) else None) = Some x ->
              exists a s', String c s = a ++ s' /\ all cls a = true
                           /\ lo <= String.length a /\ k s' = Some x).
    { destruct (Nat.eqb_spec lo 0) as [->|]; [|discriminate].
      intros H. exists "", (String c s). auto. }
    destruct (cls c) eqn:Hc; [|exact Hhere].
    destruct (rep_greedy cls (Nat.pred lo) s k) eqn:Hrec; [|exact Hhere].
    intros [= ->]. destruct (IH _ Hrec) as (a & s' & -> & Ha & Hlo & Hk).
    exists (String c a), s'. simpl. rewrite Hc, Ha. repeat split; auto. lia.
Qed.

Lemma rep_greedy_complete cls lo a s' k :
  all cls a = true -> lo <= String.length a ->
  rep_greedy cls lo (a ++ s') k = None -> k s' = None.
Proof.
  revert lo. induction a as [|c a IH]; intros lo Ha Hlo.
  - simpl in Hlo. assert (lo = 0) as -> by lia. simpl.
    destruct s' as [|c s']; simpl; [tauto|].
    destruct (cls c); [|tauto].
    destruct (rep_greedy cls 0 s' k); [discriminate | tauto].
  - simpl in Ha. apply andb_true_iff in Ha as [Hc Ha]. simpl. rewrite Hc.
    destruct (rep_greedy cls (Nat.pred lo) (a ++ s') k) eqn:Hrec; [discriminate|].
    intros _. apply (IH (Nat.pred lo)); auto. simpl in Hlo. lia.
Qed.

(** The longest run is tried first. *)
Lemma rep_greedy_max cls lo a b k x :
  all cls a = true -> stops cls b = true -> lo <= String.length a ->
  k b = Some x -> rep_greedy cls lo (a ++ b) k = Some x.
Proof.
  revert lo. induction a as [|c a IH]; intros lo Ha Hb Hlo Hk.
  - simpl in Hlo. assert (lo = 0) as -> by lia. simpl.
    destruct b as [|c b]; simpl; [exact Hk|].
    simpl in Hb. apply negb_true_iff in Hb. now rewrite Hb.
  - simpl in Ha. apply andb_true_iff in Ha as [Hc Ha]. simpl. rewrite Hc.
    rewrite (IH (Nat.pred lo)); auto. simpl in Hlo. lia.
Qed.

Lemma rep_lazy_sound cls lo s k x :
  rep_lazy cls lo s k = Some x ->
  exists a s', s = a ++ s' /\ all cls a = true /\ lo <= String.length a
               /\ k s' = Some x.
Proof.
  revert lo. induction s as [|c s IH]; intros lo; simpl.
  - destruct (Nat.eqb_spec lo 0) as [->|]; [|discriminate].
    destruct (k "") eqn:Hk; [|discriminate].
    intros [= ->]. exists "", "". auto.
  - destruct (if Nat.eqb lo 0 then k (String c s) else None) as [y|] eqn:Hhere.
    + intros [= <-]. destruct (Nat.eqb lo 0) eqn:Hz; [|discriminate].
      apply Nat.eqb_eq in Hz. exists "", (String c s).
      repeat split; auto. simpl. lia.
    + destruct (cls c) eqn:Hc; [|discriminate].
      intros Hrec. destruct (IH _ Hrec) as (a & s' & -> & Ha & Hlo & Hk).
      exists (String c a), s'. simpl. rewrite Hc, Ha. repeat split; auto. lia.
Qed.

Lemma rep_lazy_complete cls lo a s' k :
  all cls a = true -> lo <= String.length a ->
  rep_lazy cls lo (a ++ s') k = None -> k s' = None.
Proof.
  revert lo. induction a as [|c a IH]; intros lo Ha Hlo.
  - simpl in Hlo. assert (lo = 0) as -> by lia.
    destruct s' as [|c s']; simpl.
    + destruct (k ""); [discriminate | tauto].
    + destruct (k (String c s')); [discriminate | tauto].
  - simpl in Ha. apply andb_true_iff in Ha as [Hc Ha]. simpl. rewrite Hc.
    destruct (if Nat.eqb lo 0 then k (String c (a ++ s')) else None);
      [discriminate|].
    apply (IH (Nat.pred lo)); auto. simpl in Hlo. lia.
Qed.

(** The shortest run after which the rest matches is the one found. *)
Lemma rep_lazy_first cls lo a b k x :
  all cls a = true -> lo <= String.length a -> k b = Some x ->
  (forall a1 a2, a = a1 ++ a2 -> a2 <> "" -> k (a2 ++ b) = None) ->
  rep_lazy cls lo (a ++ b) k = Some x.
Proof.
  revert lo. induction a as [|c a IH]; intros lo Ha Hlo Hk Hshort.
  - simpl in Hlo. assert (lo = 0) as -> by lia.
    destruct b as [|c b]; simpl; now rewrite Hk.
  - simpl in Ha. apply andb_true_iff in Ha as [Hc Ha]. simpl. rewrite Hc.
    assert (Hhere : (if Nat.eqb lo 0 then k (String c (a ++ b)) else None) = None).
    { destruct (Nat.eqb lo 0); [|reflexivity].
      apply (Hshort "" (String c a)); [reflexivity | discriminate]. }
    rewrite Hhere. apply IH; auto.
    + simpl in Hlo. lia.
    + intros a1 a2 -> Ha2. apply (Hshort (String c a1) a2); auto.
Qed.

Implicit Types (K : string -> groups -> option A).

Lemma exec_sound n r : forall s m K x,
  exec n r s m K = Some x ->
  exists s' m', matches n r s m s' m' /\ K s' m' = Some x.
Proof.
  induction r as [| |text|greedy lo cls|r1 IH1 r2 IH2|r IH|name r IH];
    intros s m K x; simpl.
  - destruct (Nat.eqb_spec (String.length s) n); [|discriminate].
    intros H. exists s, m. auto.
  - destruct (at_end s) eqn:He; [|discriminate].
    intros H. exists s, m. auto.
  - destruct (strip_prefix text s) as [s'|] eqn:Hp; [|discriminate].
    intros H. exists s', m. split; [|exact H].
    split; [now apply strip_prefix_some | reflexivity].
  - intros H.
    assert (exists a s', s = a ++ s' /\ all cls a = true
                         /\ lo <= String.length a /\ K s' m = Some x)
      as (a & s' & -> & Ha & Hlo & Hk).
    { destruct greedy; [eapply rep_greedy_sound | eapply rep_lazy_sound];
        exact H. }
    exists s', m. split; [|exact Hk]. split; [reflexivity|]. now exists a.
  - intros H. destruct (IH1 _ _ _ _ H) as (s1 & m1 & H1 & H').
    destruct (IH2 _ _ _ _ H') as (s2 & m2 & H2 & Hk).
    exists s2, m2. split; [|exact Hk]. now exists s1, m1.
  - destruct (exec n r s m K) eqn:Hr.
    + intros [= ->]. destruct (IH _ _ _ _ Hr) as (s' & m' & H1 & Hk).
      exists s', m'. auto.
    + intros H. exists s, m. auto.
  - intros H. destruct (IH _ _ _ _ H) as (s' & m' & H1 & Hk).
    exists s', ((name, taken s s') :: m'). split; [|exact Hk]. now exists m'.
Qed.

Lemma exec_complete n r : forall s m K s' m',
  matches n r s m s' m' -> exec n r s m K = None -> K s' m' = None.
Proof.
  induction r as [| |text|greedy lo cls|r1 IH1 r2 IH2|r IH|name r IH];
    intros s m K s' m'; simpl.
  - intros (-> & -> & Hn). apply Nat.eqb_eq in Hn. now rewrite Hn.
  - intros (-> & -> & He). now rewrite He.
  - intros (-> & ->). now rewrite strip_prefix_app.
  - intros (-> & a & -> & Ha & Hlo) H.
    destruct greedy;
      [ apply (@rep_greedy_complete cls lo a s' (fun s' => K s' m))
      | apply (@rep_lazy_complete cls lo a s' (fun s' => K s' m)) ];
      auto.
  - intros (s1 & m1 & H1 & H2) H.
    apply (IH2 _ _ _ _ _ H2). apply (IH1 _ _ _ _ _ H1 H).
  - intros [H1|(-> & ->)] H.
    + apply (IH _ _ _ _ _ H1). now destruct (exec n r s m K).
    + now destruct (exec n r s m K).
  - intros (m1 & H1 & ->) H. apply (IH _ _ _ _ _ H1 H).
Qed.

(** No way to match, no match. *)
Lemma exec_none n r s m K :
  (forall s' m', matches n r s m s' m' -> K s' m' = None) ->
  exec n r s m K = None.
Proof.
  intros H. destruct (exec n r s m K) as [x|] eqn:He; [|reflexivity].
  destruct (exec_sound n r s m K x He) as (s' & m' & Hm & Hk).
  now rewrite (H _ _ Hm) in Hk.
Qed.

(** A skipped optional group leaves the search where it was. *)
Lemma exec_opt_skip n r s m K :
  (forall s' m', matches n r s m s' m' -> K s' m' = None) ->
  exec n (Opt r) s m K = K s m.
Proof. intros H. simpl. now rewrite (exec_none n r s m K H). Qed.

Lemma exec_plus_max n cls a b m K x :
  all cls a = true -> a <> "" -> stops cls b = true -> K b m = Some x ->
  exec n (plus cls) (a ++ b) m K = Some x.
Proof.
  intros Ha Hne Hb Hk. simpl.
  apply (@rep_greedy_max cls 1 a b (fun s' => K s' m)); auto.
  destruct a; [congruence | simpl; lia].
Qed.

Lemma exec_star_max n cls a b m K x :
  all cls a = true -> stops cls b = true -> K b m = Some x ->
  exec n (star cls) (a ++ b) m K = Some x.
Proof.
  intros Ha Hb Hk. simpl.
  apply (@rep_greedy_max cls 0 a b (fun s' => K s' m)); auto. lia.
Qed.

End Search.

(** A match by [re_match] is a match by [matches]. *)
Lemma re_match_sound r s m :
  re_match r s = Some m -> exists s', matches (String.length s) r s [] s' m.
Proof.
  intros H. destruct (exec_sound _ _ _ _ _ _ H) as (s' & m' & Hm & [= ->]).
  now exists s'.
Qed.

Lemma re_match_none r s :
  (forall s' m, ~ matches (String.length s) r s [] s' m) -> re_match r s = None.
Proof.
  intros H. apply exec_none. intros s' m Hm. now destruct (H _ _ Hm).
Qed.

Lemma re_match_some r s s' m :
  matches (String.length s) r s [] s' m -> exists m', re_match r s = Some m'.
Proof.
  intros Hm. destruct (re_match r s) as [m'|] eqn:He; [now exists m'|].
  discriminate (exec_complete _ _ _ _ _ _ _ Hm He).
Qed.

End ReFacts.
Import ReFacts.

(* ================================================================= *)
(** ** The renderers *)

Module Render.
Import Layout.

Lemma ordered_keys_fixed : ordered_keys = HEADINGS.
Proof. reflexivity. Qed.

Lemma fold_append {V W : Type} (f : V -> W) (xs : list V) (acc : list W) :
  fold_left (fun acc x => append acc (f x)) xs acc = (acc ++ map f xs)%list.
Proof.
  revert acc. induction xs as [|x xs IH]; intros acc; simpl.
  - now rewrite List.app_nil_r.
  - rewrite IH. unfold append. now rewrite <- List.app_assoc.
Qed.

Lemma fold_blocks {V : Type} (step : list V -> string -> list V)
    (blk : string -> list V) (keys : list string) (acc : list V) :
  (forall acc h, step acc h = (acc ++ blk h)%list) ->
  fold_left step keys acc = (acc ++ flat_map blk keys)%list.
Proof.
  intros Hstep. revert acc. induction keys as [|h keys IH]; intros acc; simpl.
  - now rewrite List.app_nil_r.
  - now rewrite IH, Hstep, <- List.app_assoc.
Qed.

Lemma html_escape_cons (c : ascii) (s : string) :
  html_escape (String c s) = escape_char c ++ html_escape s.
Proof.
  unfold html_escape, escape_char. simpl.
  destruct (Ascii.eqb_spec c "&") as [->|]; [reflexivity|]. simpl.
  destruct (Ascii.eqb_spec c "<") as [->|]; [reflexivity|]. simpl.
  destruct (Ascii.eqb_spec c ">") as [->|]; [reflexivity|]. simpl.
  destruct (Ascii.eqb_spec c DQUOTE) as [->|]; [reflexivity|]. simpl.
  destruct (Ascii.eqb_spec c "'") as [->|]; reflexivity.
Qed.

Lemma html_escape_escaped (s : string) : html_escape s = escaped s.
Proof.
  induction s as [|c s IH]; [reflexivity|].
  now rewrite html_escape_cons, IH.
Qed.

Lemma escaped_no_markup (s : string) :
  all (fun c => negb (is_markup c)) (escaped s) = true.
Proof.
  induction s as [|c s IH]; [reflexivity|]. simpl.
  rewrite all_app, IH, andb_true_r. unfold escape_char, is_markup.
  destruct (Ascii.eqb c "&"); [reflexivity|].
  destruct (Ascii.eqb c "<") eqn:E1; [reflexivity|].
  destruct (Ascii.eqb c ">") eqn:E2; [reflexivity|].
  destruct (Ascii.eqb c DQUOTE) eqn:E3; [reflexivity|].
  destruct (Ascii.eqb c "'") eqn:E4; [reflexivity|].
  simpl. now rewrite E1, E2, E3, E4.
Qed.

Lemma markdown_lines_layout tag secs url :
  markdown_lines tag secs url = md_lines tag secs url.
Proof.
  unfold markdown_lines, md_lines. rewrite ordered_keys_fixed.
  rewrite fold_blocks with (blk := md_block secs).
  - destruct url as [[|c u]|]; simpl truthy_str; cbv iota.
    + cbn [md_changelog]. now rewrite !List.app_nil_r.
    + unfold append, md_changelog, or_empty.
      rewrite <- !List.app_assoc. reflexivity.
    + cbn [md_changelog]. now rewrite !List.app_nil_r.
  - intros acc h. unfold md_block, populated, entries.
    destruct (get secs h) as [[|e es]|]; simpl truthy_list; cbv iota beta;
      try now rewrite List.app_nil_r.
    simpl negb. cbv iota. rewrite fold_append. unfold append.
    rewrite <- !List.app_assoc. reflexivity.
Qed.

Lemma html_parts_layout tag secs url :
  html_parts tag secs url = html_lines secs.
Proof.
  unfold html_parts, html_lines. rewrite ordered_keys_fixed.
  rewrite fold_blocks with (blk := html_block secs); [reflexivity|].
  intros acc h. unfold html_block, populated, entries.
  destruct (get secs h) as [[|e es]|]; simpl truthy_list; cbv iota beta;
    try now rewrite List.app_nil_r.
  simpl negb. cbv iota.
  rewrite (fold_append (fun e => "  <li>" ++ html_escape e ++ "</li>")).
  unfold append. rewrite <- !List.app_assoc.
  rewrite (map_ext (fun e => "  <li>" ++ html_escape e ++ "</li>") html_item)
    by (intros a; unfold html_item; now rewrite html_escape_escaped).
  unfold html_heading. rewrite html_escape_escaped. reflexivity.
Qed.

End Render.

Module RenderClaims.
Import Layout Render.

Lemma filter_app_nil {V : Type} (p : V -> bool) (xs ys : list V) :
  filter p xs = [] -> filter p (xs ++ ys)%list = filter p ys.
Proof. intros H. now rewrite List.filter_app, H. Qed.

Lemma md_items_no_heading (es : list string) :
  filter (startswith "### ") (map md_item es) = [].
Proof. induction es as [|e es IH]; [reflexivity | exact IH]. Qed.

Lemma html_items_no_heading (es : list string) :
  filter (startswith "<h2>") (map html_item es) = [].
Proof. induction es as [|e es IH]; [reflexivity | exact IH]. Qed.

Lemma md_blocks_headings (secs : sections) (hs : list string) :
  filter (startswith "### ") (flat_map (md_block secs) hs)
  = map md_heading (filter (populated secs) hs).
Proof.
  induction hs as [|h hs IH]; [reflexivity|].
  simpl flat_map. simpl filter at 2. unfold md_block at 1.
  destruct (populated secs h); [|exact IH].
  rewrite <- !List.app_assoc. simpl.
  rewrite List.filter_app, md_items_no_heading. simpl. now rewrite IH.
Qed.

Lemma html_blocks_headings (secs : sections) (hs : list string) :
  filter (startswith "<h2>") (flat_map (html_block secs) hs)
  = map html_heading (filter (populated secs) hs).
Proof.
  induction hs as [|h hs IH]; [reflexivity|].
  simpl flat_map. simpl filter at 2. unfold html_block at 1.
  destruct (populated secs h); [|exact IH].
  rewrite <- !List.app_assoc. simpl.
  rewrite List.filter_app, html_items_no_heading. simpl. now rewrite IH.
Qed.

Lemma md_changelog_no_heading (url : option string) :
  filter (startswith "### ") (md_changelog url) = [].
Proof. now destruct url as [[|c u]|]. Qed.

End RenderClaims.
Import Layout.

(** C3.  The plain-markup renderer writes the title line [## Brewy <tag>]
    and a blank line, then for each populated heading, in the fixed order,
    the line [### <heading>], a line [- <entry>] per entry in stored order
    and a blank line, then, exactly when there is a changelog URL (a
    non-empty string), the lines [---] and [**Full Changelog**: <url>] and
    a blank line; the lines are joined by line feeds.  For the tag
    [v2.0.0], the one entry [add X] under "What's New" (as parsed from
    [* feat: add X]) and a URL, the output is the text the description
    gives. *)
Theorem format_markdown_layout :
  forall (tag : string) (secs : sections) (url : option string),
    format_markdown tag secs url = join Str.LF (md_lines tag secs url)
    /\ parse_notes "* feat: add X" = Ok ([("What's New", ["add X"])], None)
    /\ forall (c : ascii) (u : string),
         format_markdown "v2.0.0" [("What's New", ["add X"])] (Some (String c u))
         = "## Brewy v2.0.0" ++ Str.LF ++ Str.LF
           ++ "### What's New" ++ Str.LF
           ++ "- add X" ++ Str.LF ++ Str.LF
           ++ "---" ++ Str.LF
           ++ "**Full Changelog**: " ++ String c u ++ Str.LF.
Proof.
  intros tag secs url. unfold format_markdown.
  split; [now rewrite Render.markdown_lines_layout|].
  split; [reflexivity|].
  intros c u. rewrite Render.markdown_lines_layout. reflexivity.
Qed.

(** C4.  The HTML renderer writes, for each populated heading in the fixed
    order, [<h2>] + the escaped heading + [</h2>], [<ul>], a line of two
    spaces + [<li>] + the escaped entry + [</li>] per entry, and [</ul>],
    and nothing else: no title line and no changelog line, so that neither
    the tag nor the changelog URL has any effect on the output.  Escaping
    replaces [&], [<], [>] and both quotes character by character, and
    leaves none of [<], [>] and the quotes in the text. *)
Theorem format_html_layout :
  forall (tag : string) (secs : sections) (url : option string),
    format_html tag secs url = join Str.LF (html_lines secs)
    /\ (forall (tag' : string) (url' : option string),
          format_html tag' secs url' = format_html tag secs url)
    /\ (forall s : string,
          html_escape s = escaped s
          /\ all (fun c => negb (is_markup c)) (html_escape s) = true)
    /\ html_heading "What's New" = "<h2>What&#x27;s New</h2>"
    /\ format_html "v2.0.0" [("What's New", ["add X"])] (Some "https://u")
       = "<h2>What&#x27;s New</h2>" ++ Str.LF ++ "<ul>" ++ Str.LF
         ++ "  <li>add X</li>" ++ Str.LF ++ "</ul>".
Proof.
  intros tag secs url. unfold format_html.
  split; [now rewrite Render.html_parts_layout|].
  split; [intros tag' url'; now rewrite !Render.html_parts_layout|].
  split; [|split; reflexivity].
  intros s. rewrite Render.html_escape_escaped.
  split; [reflexivity | apply Render.escaped_no_markup].
Qed.

(** C5.  In both renderers the heading lines of the output are those of
    the populated headings, in the order What's New, Fixes, Performance,
    Under the Hood, Documentation, Style, Testing, Other, whatever the
    order of the keys of the sections; a heading without entries gives no
    line at all. *)
Theorem heading_order_fixed :
  forall (tag : string) (secs : sections) (url : option string),
    let order :=
      [ "What's New"; "Fixes"; "Performance"; "Under the Hood";
        "Documentation"; "Style"; "Testing"; "Other" ] in
    filter (startswith "### ") (markdown_lines tag secs url)
    = map md_heading (filter (populated secs) order)
    /\ filter (startswith "<h2>") (html_parts tag secs url)
       = map html_heading (filter (populated secs) order)
    /\ markdown_lines tag secs url
       = ([md_title tag; ""] ++ flat_map (md_block secs) order
            ++ md_changelog url)%list
    /\ html_parts tag secs url = flat_map (html_block secs) order
    /\ forall heading : string,
         populated secs heading = true
         \/ (md_block secs heading = [] /\ html_block secs heading = []).
Proof.
  intros tag secs url order.
  rewrite Render.markdown_lines_layout, Render.html_parts_layout.
  unfold md_lines, html_lines. fold order. change HEADINGS with order.
  repeat split.
  - rewrite !List.filter_app, RenderClaims.md_blocks_headings,
      RenderClaims.md_changelog_no_heading.
    rewrite List.app_nil_r. reflexivity.
  - apply RenderClaims.html_blocks_headings.
  - intros heading. unfold md_block, html_block.
    destruct (populated secs heading); [left | right]; auto.
Qed.

(* ================================================================= *)
(** ** Character classes *)

Module CharFacts.

Ltac by_cases c :=
  destruct c as [[] [] [] [] [] [] [] []]; vm_compute;
  try reflexivity; try discriminate; try tauto.

Lemma name_not_space c : is_name c = true -> is_space c = false.
Proof. by_cases c. Qed.

Lemma lower_not_space c : is_lower c = true -> is_space c = false.
Proof. by_cases c. Qed.

Lemma upper_not_space c : is_upper c = true -> is_space c = false.
Proof. by_cases c. Qed.

Lemma upper_not_lower c : is_upper c = true -> is_lower c = false.
Proof. by_cases c. Qed.

Lemma linebreak_space c : is_linebreak c = true -> is_space c = true.
Proof. by_cases c. Qed.

Lemma not_dot_linebreak c : is_dot c = false -> is_linebreak c = true.
Proof. by_cases c. Qed.

Lemma nonspace_dot c : is_space c = false -> is_dot c = true.
Proof. by_cases c. Qed.

Lemma nonspace_iff c : is_nonspace c = true <-> is_space c = false.
Proof. unfold is_nonspace. apply negb_true_iff. Qed.

Lemma all_nonspace_dot s : all is_nonspace s = true -> all is_dot s = true.
Proof.
  apply all_impl. intros c H. apply nonspace_dot. now apply nonspace_iff.
Qed.

Lemma all_lower_nonspace s : all is_lower s = true -> all is_nonspace s = true.
Proof.
  apply all_impl. intros c H. apply nonspace_iff. now apply lower_not_space.
Qed.

Lemma all_name_nonspace s : all is_name s = true -> all is_nonspace s = true.
Proof.
  apply all_impl. intros c H. apply nonspace_iff. now apply name_not_space.
Qed.

End CharFacts.
Import CharFacts.

(* ================================================================= *)
(** ** Trimming, lines and words *)

Module LineFacts.

Lemma lstrip_nonspace c s : is_space c = false -> lstrip (String c s) = String c s.
Proof. intros H. simpl. now rewrite H. Qed.

Lemma lstrip_all_space l s :
  all is_space l = true -> lstrip (l ++ s) = lstrip s.
Proof.
  induction l as [|c l IH]; simpl; [reflexivity|].
  intros H. apply andb_true_iff in H as [Hc Hl]. rewrite Hc. auto.
Qed.

Lemma rstrip_cons_nonspace c s :
  is_space c = false -> rstrip (String c s) = String c (rstrip s).
Proof. intros H. simpl. rewrite H. now destruct (rstrip s). Qed.

Lemma rstrip_all_space r : all is_space r = true -> rstrip r = "".
Proof.
  induction r as [|c r IH]; simpl; [reflexivity|].
  intros H. apply andb_true_iff in H as [Hc Hr]. now rewrite (IH Hr), Hc.
Qed.

(** A text that ends with a character that is not white space. *)
Lemma rstrip_ends_nonspace a c r :
  is_space c = false -> all is_space r = true ->
  rstrip (a ++ String c r) = a ++ String c "".
Proof.
  intros Hc Hr. induction a as [|x a IH]; simpl.
  - now rewrite (rstrip_all_space _ Hr), Hc.
  - rewrite IH. now destruct a.
Qed.

Lemma strip_framed l x a c r :
  all is_space l = true -> all is_space r = true ->
  is_space x = false -> is_space c = false ->
  strip (l ++ String x (a ++ String c r)) = String x (a ++ String c "").
Proof.
  intros Hl Hr Hx Hc. unfold strip.
  rewrite (lstrip_all_space _ _ Hl), (lstrip_nonspace _ _ Hx).
  change (String x (a ++ String c r)) with (String x a ++ String c r).
  now rewrite (rstrip_ends_nonspace _ _ _ Hc Hr).
Qed.

(** The parts of a text around its trimmed form. *)
Lemma lstrip_parts s :
  exists l, s = l ++ lstrip s /\ all is_space l = true
            /\ stops is_space (lstrip s) = true.
Proof.
  induction s as [|c s (l & Hs & Hl & Hstop)].
  - now exists "".
  - simpl. destruct (is_space c) eqn:Hc.
    + exists (String c l). simpl. rewrite Hc, Hl, <- Hs. auto.
    + exists "". simpl. now rewrite Hc.
Qed.

Lemma rstrip_parts s :
  exists r, s = rstrip s ++ r /\ all is_space r = true
            /\ (rstrip s = ""
                \/ exists a c, rstrip s = a ++ String c "" /\ is_space c = false).
Proof.
  induction s as [|x s (r & Hs & Hr & Hend)].
  - exists "". auto.
  - simpl. destruct (rstrip s) as [|y t] eqn:Ht.
    + simpl in Hs. subst r. destruct (is_space x) eqn:Hx.
      * exists (String x s). simpl. rewrite Hx, Hr. auto.
      * exists s. repeat split; auto. right. now exists "", x.
    + exists r. split; [simpl; f_equal; exact Hs|]. split; [exact Hr|].
      right. destruct Hend as [|(a & c & Ha & Hc)]; [discriminate|].
      exists (String x a), c. simpl. now rewrite Ha.
Qed.

(** A text with a character that is not white space: its trimmed form
    starts and ends with such a character, between two runs of white
    space. *)
Lemma strip_parts d :
  strip d <> "" ->
  exists l r,
    d = l ++ strip d ++ r /\ all is_space l = true /\ all is_space r = true
    /\ (exists x a, strip d = String x a /\ is_space x = false)
    /\ (exists b c, strip d = b ++ String c "" /\ is_space c = false).
Proof.
  unfold strip. intros Hne.
  destruct (lstrip_parts d) as (l & Hd & Hl & Hstop).
  destruct (rstrip_parts (lstrip d)) as (r & Hs & Hr & Hend).
  destruct Hend as [He|Hend]; [contradiction|].
  exists l, r. rewrite <- Hs. repeat split; auto.
  destruct (lstrip d) as [|x s]; [now destruct Hne|].
  simpl in Hstop. apply negb_true_iff in Hstop.
  exists x, (rstrip s). split; [|exact Hstop].
  now apply rstrip_cons_nonspace.
Qed.

Lemma strip_fixed x a b c :
  is_space x = false -> is_space c = false ->
  String x a = b ++ String c "" -> strip (String x a) = String x a.
Proof.
  intros Hx Hc E. unfold strip. rewrite (lstrip_nonspace x a Hx), E.
  apply rstrip_ends_nonspace; auto.
Qed.

Lemma one_line_app a b : one_line (a ++ b) = one_line a && one_line b.
Proof. apply all_app. Qed.

Lemma splitlines_one_line s :
  one_line s = true -> s <> "" -> splitlines s = [s].
Proof.
  induction s as [|c s IH]; [congruence|].
  unfold one_line. simpl. intros H _. apply andb_true_iff in H as [Hc Hs].
  apply negb_true_iff in Hc. rewrite Hc.
  destruct s as [|c' s]; [reflexivity|].
  now rewrite IH.
Qed.

Lemma nonspace_one_line s : all is_nonspace s = true -> one_line s = true.
Proof.
  apply all_impl. intros c H. apply nonspace_iff in H.
  destruct (is_linebreak c) eqn:Hl; [|reflexivity].
  now rewrite (linebreak_space _ Hl) in H.
Qed.

Lemma one_line_dot s : one_line s = true -> all is_dot s = true.
Proof.
  apply all_impl. intros c H. apply negb_true_iff in H.
  destruct (is_dot c) eqn:Hd; [reflexivity|].
  now rewrite (not_dot_linebreak _ Hd) in H.
Qed.

(** *** Words *)

Lemma count_words_inside s : count_words true s <= count_words false s.
Proof. destruct s as [|c s]; simpl; [lia|]. destruct (is_space c); lia. Qed.

Lemma count_words_app_le i a b :
  count_words i (a ++ b) <= count_words i a + nwords b.
Proof.
  revert i. induction a as [|c a IH]; intros i; simpl.
  - destruct i; [apply count_words_inside | unfold nwords; lia].
  - destruct (is_space c); [apply IH|].
    specialize (IH true). lia.
Qed.

Lemma nwords_app_le a b : nwords (a ++ b) <= nwords a + nwords b.
Proof. apply count_words_app_le. Qed.

Lemma count_words_app_space i a b :
  space_first b = true -> count_words i (a ++ b) = count_words i a + nwords b.
Proof.
  intros Hb. revert i. induction a as [|c a IH]; intros i; simpl.
  - destruct b as [|c b]; [reflexivity|]. simpl in Hb |- *.
    unfold is_nonspace in Hb. apply negb_true_iff, negb_false_iff in Hb.
    unfold nwords. simpl. now rewrite Hb.
  - destruct (is_space c); [apply IH|]. rewrite IH. lia.
Qed.

Lemma nwords_app_space a b :
  space_first b = true -> nwords (a ++ b) = nwords a + nwords b.
Proof. apply count_words_app_space. Qed.

Lemma count_words_space i s : all is_space s = true -> count_words i s = 0.
Proof.
  revert i. induction s as [|c s IH]; intros i; simpl; [reflexivity|].
  intros H. apply andb_true_iff in H as [Hc Hs]. rewrite Hc. auto.
Qed.

Lemma count_words_nonspace s :
  all is_nonspace s = true -> count_words true s = 0.
Proof.
  induction s as [|c s IH]; simpl; [reflexivity|].
  intros H. apply andb_true_iff in H as [Hc Hs]. apply nonspace_iff in Hc.
  rewrite Hc. auto.
Qed.

Lemma nwords_nonspace_le s : all is_nonspace s = true -> nwords s <= 1.
Proof.
  destruct s as [|c s]; unfold nwords; simpl; [lia|].
  intros H. apply andb_true_iff in H as [Hc Hs]. apply nonspace_iff in Hc.
  rewrite Hc, (count_words_nonspace _ Hs). lia.
Qed.

Lemma nwords_nonspace s :
  all is_nonspace s = true -> s <> "" -> nwords s = 1.
Proof.
  destruct s as [|c s]; unfold nwords; simpl; [congruence|].
  intros H _. apply andb_true_iff in H as [Hc Hs]. apply nonspace_iff in Hc.
  now rewrite Hc, (count_words_nonspace _ Hs).
Qed.

(** A text with a character that is not white space has a word. *)
Lemma nwords_positive a c b : is_space c = false -> 1 <= nwords (a ++ String c b).
Proof.
  intros Hc. unfold nwords. induction a as [|x a IH]; simpl.
  - rewrite Hc. lia.
  - destruct (is_space x); [exact IH | lia].
Qed.

Lemma suffix_ends a1 a2 b (c : ascii) :
  a1 ++ a2 = b ++ String c "" -> a2 <> "" -> exists b', a2 = b' ++ String c "".
Proof.
  intros H Hne. destruct (app_eq_app _ _ _ _ H) as [[e [-> ->]]|[e [-> He]]].
  - now exists e.
  - destruct e as [|y e].
    + exists "". now rewrite He.
    + simpl in He. injection He as -> He. destruct e; [|discriminate].
      simpl in He. congruence.
Qed.

End LineFacts.
Import LineFacts.

(* ================================================================= *)
(** ** Following the search along a pattern *)

Module Run.
Section Run.
Context {A : Type}.
Implicit Types (K : string -> groups -> option A).

Lemma run_assoc n r1 r2 r3 s m K :
  exec n ((r1 +> r2) +> r3) s m K = exec n (r1 +> r2 +> r3) s m K.
Proof. reflexivity. Qed.

Lemma run_bol n r s m K :
  String.length s = n -> exec n (Bol +> r) s m K = exec n r s m K.
Proof. intros H. simpl. apply Nat.eqb_eq in H. now rewrite H. Qed.

Lemma run_lit n text r s b m K :
  s = text ++ b -> exec n (Lit text +> r) s m K = exec n r b m K.
Proof. intros ->. simpl. now rewrite strip_prefix_app. Qed.

Lemma run_plus n cls r s a b m K x :
  s = a ++ b -> all cls a = true -> a <> "" -> stops cls b = true ->
  exec n r b m K = Some x -> exec n (plus cls +> r) s m K = Some x.
Proof.
  intros -> Ha Hne Hb H.
  apply (exec_plus_max n cls a b m (fun s' m' => exec n r s' m' K)); auto.
Qed.

Lemma run_star n cls r s a b m K x :
  s = a ++ b -> all cls a = true -> stops cls b = true ->
  exec n r b m K = Some x -> exec n (star cls +> r) s m K = Some x.
Proof.
  intros -> Ha Hb H.
  apply (exec_star_max n cls a b m (fun s' m' => exec n r s' m' K)); auto.
Qed.

Lemma run_opt_take n r1 r s m K x :
  exec n (r1 +> r) s m K = Some x -> exec n (Opt r1 +> r) s m K = Some x.
Proof. simpl. now intros ->. Qed.

Lemma run_opt_skip n r1 r s m K :
  (forall s' m', ~ matches n r1 s m s' m') ->
  exec n (Opt r1 +> r) s m K = exec n r s m K.
Proof.
  intros H. simpl.
  rewrite (exec_none n r1 s m (fun s' m' => exec n r s' m' K)); [reflexivity|].
  intros s' m' Hm. now destruct (H _ _ Hm).
Qed.

(** An optional group after every match of which the rest fails. *)
Lemma run_opt_fail n r1 r s m K :
  (forall s' m', matches n r1 s m s' m' -> exec n r s' m' K = None) ->
  exec n (Opt r1 +> r) s m K = exec n r s m K.
Proof.
  intros H. simpl.
  now rewrite (exec_none n r1 s m (fun s' m' => exec n r s' m' K) H).
Qed.

Lemma run_group n name r s m K :
  exec n (Group name r) s m K
  = exec n r s m (fun s' m' => K s' ((name, taken s s') :: m')).
Proof. reflexivity. Qed.

Lemma run_group_plus n name cls r s a b m K x :
  s = a ++ b -> all cls a = true -> a <> "" -> stops cls b = true ->
  exec n r b ((name, a) :: m) K = Some x ->
  exec n (Group name (plus cls) +> r) s m K = Some x.
Proof.
  intros -> Ha Hne Hb H. simpl.
  apply (rep_greedy_max cls 1 a b
           (fun s' => exec n r s' ((name, taken (a ++ b) s') :: m) K)); auto.
  - destruct a; [congruence | simpl; lia].
  - now rewrite taken_app.
Qed.

(** A lazy group takes the shortest text after which the rest matches. *)
Lemma run_group_lazy n name cls r s a b m K x :
  s = a ++ b -> all cls a = true -> a <> "" ->
  exec n r b ((name, a) :: m) K = Some x ->
  (forall a1 a2, a = a1 ++ a2 -> a2 <> "" ->
     exec n r (a2 ++ b) ((name, a1) :: m) K = None) ->
  exec n (Group name (plus_lazy cls) +> r) s m K = Some x.
Proof.
  intros -> Ha Hne H Hshort. simpl.
  apply (rep_lazy_first cls 1 a b
           (fun s' => exec n r s' ((name, taken (a ++ b) s') :: m) K)); auto.
  - destruct a; [congruence | simpl; lia].
  - now rewrite taken_app.
  - intros a1 a2 -> Ha2. rewrite app_assoc, taken_app. now apply Hshort.
Qed.

End Run.
End Run.

(* ================================================================= *)
(** ** The patterns of the script *)

Module PatternFacts.

Lemma matches_no_groups n r : forall s m s' m',
  no_groups r = true -> matches n r s m s' m' -> m' = m.
Proof.
  induction r as [| |text|greedy lo cls|r1 IH1 r2 IH2|r IH|name r IH];
    intros s m s' m'; simpl; try tauto.
  - intros H (s1 & m1 & H1 & H2). apply andb_true_iff in H as [G1 G2].
    rewrite (IH2 _ _ _ _ G2 H2). exact (IH1 _ _ _ _ G1 H1).
  - intros H [H1|[_ ->]]; [exact (IH _ _ _ _ H H1) | reflexivity].
  - discriminate.
Qed.

(** What [\s+by\s+@[\w-]+] takes: two words after white space. *)
Lemma by_cut n s m s' m' :
  matches n PR_BY s m s' m' ->
  m' = m /\ exists c a, s = String c a ++ s' /\ is_space c = true
                        /\ nwords (String c a) <= 2.
Proof.
  unfold PR_BY. cbn [matches plus].
  intros (s1 & m1 & (-> & a1 & -> & Ha1 & L1) & s2 & m2 & (-> & ->)
          & s3 & m3 & (-> & a2 & -> & Ha2 & _) & s4 & m4 & (-> & ->)
          & -> & a3 & -> & Ha3 & _).
  split; [reflexivity|].
  destruct a1 as [|c a1]; [simpl in L1; lia|].
  simpl in Ha1. apply andb_true_iff in Ha1 as [Hc Ha1].
  exists c, (a1 ++ "by" ++ a2 ++ "@" ++ a3).
  split; [str_eq|]. split; [exact Hc|].
  change (String c (a1 ++ "by" ++ a2 ++ "@" ++ a3))
    with (String c a1 ++ "by" ++ a2 ++ "@" ++ a3).
  assert (Hw1 : nwords (String c a1) = 0)
    by (apply count_words_space; simpl; now rewrite Hc, Ha1).
  assert (Hw2 : nwords a2 = 0) by now apply count_words_space.
  assert (Hw3 : nwords ("@" ++ a3) <= 1)
    by (apply nwords_nonspace_le; simpl; now apply all_name_nonspace).
  pose proof (nwords_app_le (String c a1) ("by" ++ a2 ++ "@" ++ a3)).
  pose proof (nwords_app_le "by" (a2 ++ "@" ++ a3)).
  pose proof (nwords_app_le a2 ("@" ++ a3)).
  change (nwords "by") with 1 in *. lia.
Qed.

(** What [\s+in\s+https?://\S+] takes: two words after white space. *)
Lemma in_cut n s m s' m' :
  matches n PR_IN s m s' m' ->
  m' = m /\ exists c a, s = String c a ++ s' /\ is_space c = true
                        /\ nwords (String c a) <= 2.
Proof.
  unfold PR_IN. cbn [matches plus].
  intros (s1 & m1 & (-> & a1 & -> & Ha1 & L1) & s2 & m2 & (-> & ->)
          & s3 & m3 & (-> & a2 & -> & Ha2 & _) & s4 & m4 & (-> & ->)
          & s5 & m5 & Hs & s6 & m6 & (-> & ->)
          & -> & a3 & -> & Ha3 & _).
  assert (exists o, s4 = o ++ "://" ++ a3 ++ s' /\ (o = "s" \/ o = "") /\ m5 = m)
    as (o & -> & Ho & ->).
  { destruct Hs as [[-> ->]|[-> ->]]; [exists "s" | exists ""]; auto. }
  split; [reflexivity|].
  destruct a1 as [|c a1]; [simpl in L1; lia|].
  simpl in Ha1. apply andb_true_iff in Ha1 as [Hc Ha1].
  exists c, (a1 ++ "in" ++ a2 ++ "http" ++ o ++ "://" ++ a3).
  split; [str_eq|]. split; [exact Hc|].
  change (String c (a1 ++ "in" ++ a2 ++ "http" ++ o ++ "://" ++ a3))
    with (String c a1 ++ "in" ++ a2 ++ "http" ++ o ++ "://" ++ a3).
  assert (Hw1 : nwords (String c a1) = 0)
    by (apply count_words_space; simpl; now rewrite Hc, Ha1).
  assert (Hw2 : nwords a2 = 0) by now apply count_words_space.
  assert (Hw3 : nwords ("http" ++ o ++ "://" ++ a3) <= 1).
  { apply nwords_nonspace_le. destruct Ho as [->| ->]; simpl; exact Ha3. }
  pose proof (nwords_app_le (String c a1) ("in" ++ a2 ++ "http" ++ o ++ "://" ++ a3)).
  pose proof (nwords_app_le "in" (a2 ++ "http" ++ o ++ "://" ++ a3)).
  pose proof (nwords_app_le a2 ("http" ++ o ++ "://" ++ a3)).
  change (nwords "in") with 1 in *. lia.
Qed.

Lemma end_cut n s m s' m' :
  matches n PR_END s m s' m' ->
  m' = m /\ nwords s = 0 /\ space_first s = true.
Proof.
  unfold PR_END. cbn [matches star].
  intros (s1 & m1 & (E1 & a & E2 & Ha & _) & E3 & E4 & He).
  subst m1 m' s' s. split; [reflexivity|].
  assert (Hs1 : all is_space s1 = true).
  { destruct s1 as [|c [|c' s1]]; try discriminate; [reflexivity|].
    simpl in He. apply Ascii.eqb_eq in He. now subst c. }
  assert (H : all is_space (a ++ s1) = true) by now rewrite all_app, Ha, Hs1.
  split; [now apply count_words_space|].
  destruct (a ++ s1) as [|c t]; [reflexivity|]. simpl in H |- *.
  apply andb_true_iff in H as [Hc _]. unfold is_nonspace. now rewrite Hc.
Qed.

(** What is left after the description holds at most four words, and
    starts with white space unless it is empty. *)
Lemma tail_cut n s m s' m' :
  matches n PR_TAIL s m s' m' ->
  m' = m /\ nwords s <= 4 /\ space_first s = true.
Proof.
  unfold PR_TAIL. cbn [matches].
  intros (s1 & m1 & Hby & s2 & m2 & Hin & Hend).
  apply end_cut in Hend as (-> & We & Se).
  assert (m2 = m1 /\ nwords s1 <= 2 /\ space_first s1 = true) as (-> & Wi & Si).
  { destruct Hin as [Hin|[-> ->]]; [|repeat split; auto; lia].
    apply in_cut in Hin as (-> & c & a & -> & Hc & Hw).
    split; [reflexivity|]. split.
    - pose proof (nwords_app_le (String c a) s2). lia.
    - simpl. unfold is_nonspace. now rewrite Hc. }
  assert (m1 = m /\ nwords s <= 4 /\ space_first s = true) as (-> & Wb & Sb).
  { destruct Hby as [Hby|[-> ->]]; [|repeat split; auto; lia].
    apply by_cut in Hby as (-> & c & a & -> & Hc & Hw).
    split; [reflexivity|]. split.
    - pose proof (nwords_app_le (String c a) s1). lia.
    - simpl. unfold is_nonspace. now rewrite Hc. }
  auto.
Qed.

End PatternFacts.

(* ================================================================= *)
(** ** A pull-request line with its attribution and link *)

Module PrLine.
Import Run PatternFacts.

Lemma last_char s : s <> "" -> exists b c, s = b ++ String c "".
Proof.
  induction s as [|x s IH]; [congruence|]. intros _.
  destruct s as [|y s].
  - now exists "", x.
  - destruct IH as (b & c & E); [discriminate|].
    exists (String x b), c. simpl. now rewrite <- E.
Qed.

Lemma all_last p b c : all p (b ++ String c "") = true -> p c = true.
Proof.
  rewrite all_app. simpl. intros H. apply andb_true_iff in H as [_ H].
  now apply andb_true_iff in H as [H _].
Qed.

(** The words of [ by @<user> in <url>]. *)
Lemma suffix_words u o r :
  all is_name u = true -> (o = "s" \/ o = "") -> all is_nonspace r = true ->
  nwords (" by @" ++ u ++ " in http" ++ o ++ "://" ++ r) = 4.
Proof.
  intros Hu Ho Hr.
  replace (" by @" ++ u ++ " in http" ++ o ++ "://" ++ r)
    with (" by" ++ (" @" ++ u) ++ " in" ++ " http" ++ o ++ "://" ++ r) by str_eq.
  rewrite (nwords_app_space " by") by reflexivity.
  rewrite (nwords_app_space (" @" ++ u)) by reflexivity.
  rewrite (nwords_app_space " in") by reflexivity.
  change (nwords " by") with 1. change (nwords " in") with 1.
  change (nwords (" @" ++ u)) with (nwords ("@" ++ u)).
  change (nwords (" http" ++ o ++ "://" ++ r))
    with (nwords ("http" ++ o ++ "://" ++ r)).
  rewrite (nwords_nonspace ("@" ++ u));
    [|simpl; now apply all_name_nonspace|discriminate].
  rewrite (nwords_nonspace ("http" ++ o ++ "://" ++ r));
    [reflexivity| |discriminate].
  destruct Ho as [->| ->]; exact Hr.
Qed.

(** After the description, the attribution and the link are taken. *)
Lemma tail_by_in n m w0 u o r :
  all is_space w0 = true -> all is_name u = true -> u <> "" ->
  (o = "s" \/ o = "") -> all is_nonspace r = true -> r <> "" ->
  exec n PR_TAIL (w0 ++ " by @" ++ u ++ " in http" ++ o ++ "://" ++ r) m
    (fun _ m' => Some m') = Some m.
Proof.
  intros Hw Hu Hune Ho Hr Hrne.
  unfold PR_TAIL. apply run_opt_take. unfold PR_BY. rewrite run_assoc.
  apply run_plus with (a := w0 ++ " ")
    (b := "by @" ++ u ++ " in http" ++ o ++ "://" ++ r);
    [str_eq | now rewrite all_app, Hw | now destruct w0 | reflexivity |].
  rewrite run_assoc, (run_lit n "by" _ _ (" @" ++ u ++ " in http" ++ o ++ "://" ++ r))
    by reflexivity.
  rewrite run_assoc.
  apply run_plus with (a := " ") (b := "@" ++ u ++ " in http" ++ o ++ "://" ++ r);
    [reflexivity | reflexivity | discriminate | reflexivity |].
  rewrite run_assoc, (run_lit n "@" _ _ (u ++ " in http" ++ o ++ "://" ++ r))
    by reflexivity.
  apply run_plus with (a := u) (b := " in http" ++ o ++ "://" ++ r);
    [reflexivity | exact Hu | exact Hune | reflexivity |].
  apply run_opt_take. unfold PR_IN. rewrite run_assoc.
  apply run_plus with (a := " ") (b := "in http" ++ o ++ "://" ++ r);
    [reflexivity | reflexivity | discriminate | reflexivity |].
  rewrite run_assoc, (run_lit n "in" _ _ (" http" ++ o ++ "://" ++ r))
    by reflexivity.
  rewrite run_assoc.
  apply run_plus with (a := " ") (b := "http" ++ o ++ "://" ++ r);
    [reflexivity | reflexivity | discriminate | reflexivity |].
  rewrite run_assoc, (run_lit n "http" _ _ (o ++ "://" ++ r)) by reflexivity.
  rewrite run_assoc.
  assert (Hrest : exec n (Lit "://" +> plus is_nonspace +> PR_END) ("://" ++ r) m
                    (fun _ m' => Some m') = Some m).
  { rewrite (run_lit n "://" _ _ r) by reflexivity.
    apply run_plus with (a := r) (b := "");
      [now rewrite app_empty_r | exact Hr | exact Hrne | reflexivity |].
    reflexivity. }
  destruct Ho as [->| ->].
  - apply run_opt_take.
    rewrite (run_lit n "s" _ _ ("://" ++ r)) by reflexivity.
    rewrite run_assoc. exact Hrest.
  - rewrite run_opt_skip; [rewrite run_assoc; exact Hrest|].
    intros s' m' [E _]. discriminate E.
Qed.

Lemma changelog_prefix s m :
  re_match CHANGELOG_RE s = Some m -> exists s', s = "**Full Changelog**:" ++ s'.
Proof.
  intros H. apply re_match_sound in H as (s' & H).
  unfold CHANGELOG_RE in H. cbn [matches] in H.
  destruct H as (s1 & m1 & (-> & -> & _) & s2 & m2 & (E & _) & _).
  now exists s2.
Qed.

Lemma changelog_not_bullet c s :
  re_match CHANGELOG_RE (String "*" (String c s)) <> None -> c = "*"%char.
Proof.
  destruct (re_match CHANGELOG_RE (String "*" (String c s))) as [m|] eqn:E;
    [|congruence].
  intros _. apply changelog_prefix in E as (s' & E). now injection E.
Qed.

(** The groups of [* <type>: <desc> by @<user> in <url>], the description
    standing between two runs of white space. *)
Lemma pr_line_groups t l d r0 u o r :
  all is_lower t = true -> t <> "" ->
  all is_space l = true -> all is_space r0 = true ->
  (exists x a, d = String x a /\ is_space x = false) ->
  (exists b c, d = b ++ String c "" /\ is_space c = false) ->
  all is_dot d = true ->
  all is_name u = true -> u <> "" -> (o = "s" \/ o = "") ->
  all is_nonspace r = true -> r <> "" ->
  re_match PR_RE
    ("* " ++ t ++ ": " ++ l ++ d ++ r0 ++ " by @" ++ u ++ " in http" ++ o ++ "://" ++ r)
  = Some [("desc", d); ("type", t)].
Proof.
  intros Ht Htne Hl Hr0 (x & a & Hd1 & Hx) (b & c & Hd2 & Hc) Hdot
    Hu Hune Ho Hr Hrne.
  set (suffix := " by @" ++ u ++ " in http" ++ o ++ "://" ++ r).
  unfold re_match. set (n := String.length _).
  unfold PR_RE, PR_BULLET. rewrite !run_assoc.
  rewrite run_bol by reflexivity.
  rewrite run_assoc,
    (run_lit n "*" _ _ (" " ++ t ++ ": " ++ l ++ d ++ r0 ++ suffix))
    by reflexivity.
  apply run_plus with (a := " ") (b := t ++ ": " ++ l ++ d ++ r0 ++ suffix);
    [reflexivity | reflexivity | discriminate | |].
  { destruct t as [|y t]; [congruence|]. simpl in Ht |- *.
    apply andb_true_iff in Ht as [Hy _]. now rewrite (lower_not_space _ Hy). }
  apply run_opt_take. unfold PR_TYPE. rewrite run_assoc.
  apply run_group_plus with (a := t) (b := ": " ++ l ++ d ++ r0 ++ suffix);
    [reflexivity | exact Ht | exact Htne | reflexivity |].
  rewrite run_assoc, run_opt_skip
    by (intros s' m' (s1 & m1 & (E & _) & _); discriminate E).
  rewrite run_assoc,
    (run_lit n ":" _ _ (" " ++ l ++ d ++ r0 ++ suffix)) by reflexivity.
  apply run_star with (a := " " ++ l) (b := d ++ r0 ++ suffix);
    [str_eq | exact Hl | rewrite Hd1; simpl; now rewrite Hx |].
  unfold PR_DESC.
  apply run_group_lazy with (a := d) (b := r0 ++ suffix);
    [reflexivity | exact Hdot | rewrite Hd1; discriminate | |].
  - now apply tail_by_in.
  - intros a1 a2 E Hne. apply exec_none. intros s' m' Hm.
    apply tail_cut in Hm as (_ & Hw & _). exfalso.
    rewrite Hd2 in E. symmetry in E.
    destruct (suffix_ends _ _ _ _ E Hne) as (b' & ->).
    replace ((b' ++ String c "") ++ r0 ++ suffix)
      with ((b' ++ String c r0) ++ suffix) in Hw by str_eq.
    rewrite nwords_app_space in Hw by reflexivity.
    unfold suffix in Hw. rewrite suffix_words in Hw by assumption.
    pose proof (nwords_positive b' c r0 Hc). lia.
Qed.

End PrLine.

(* ================================================================= *)
(** ** One turn of the loop *)

Module Process.
Import PatternFacts PrLine.

Lemma heading_of_table ty : get_default SECTIONS ty "Other" = heading_of ty.
Proof.
  unfold get_default, SECTIONS, heading_of. cbn [get].
  rewrite (String.eqb_sym "feat"), (String.eqb_sym "fix"),
    (String.eqb_sym "perf"), (String.eqb_sym "refactor"),
    (String.eqb_sym "docs"), (String.eqb_sym "style"), (String.eqb_sym "test").
  repeat match goal with
         | |- context [String.eqb ty ?k] => destruct (String.eqb ty k)
         end; reflexivity.
Qed.

(** A matched line that is not a changelog line: its entry goes where its
    type says. *)
Lemma process_line_pr (st : notes) line m de :
  re_match CHANGELOG_RE (strip line) = None ->
  re_match PR_RE (strip line) = Some m ->
  group m "desc" = Some de ->
  process_line st line
  = Ok (if in_set (or_empty (group m "type")) SKIP_TYPES then fst st
        else setdefault_append (fst st)
               (heading_of (or_empty (group m "type"))) (strip de),
        snd st).
Proof.
  intros Hc Hp Hd. destruct st as [secs url].
  unfold process_line. rewrite Hc, Hp, Hd. simpl.
  rewrite heading_of_table.
  match goal with |- context [if ?b then _ else _] => destruct b end;
    reflexivity.
Qed.

(** The groups of any match of [PR_RE]: a description, and maybe a type,
    which is then a run of lower-case letters. *)
Lemma pr_match_groups s m :
  re_match PR_RE s = Some m ->
  exists de, (m = [("desc", de)]
              \/ exists ty, m = [("desc", de); ("type", ty)]
                            /\ all is_lower ty = true /\ ty <> "").
Proof.
  intros H. apply re_match_sound in H as (s' & H).
  unfold PR_RE in H. cbn [matches] in H.
  destruct H as (s1 & m1 & Hb & s2 & m2 & Ht & s3 & m3 & Hd & Htl).
  apply matches_no_groups in Hb; [|reflexivity]. subst m1.
  apply tail_cut in Htl as (-> & _).
  unfold PR_DESC in Hd. cbn [matches] in Hd.
  destruct Hd as (m4 & (-> & _) & ->).
  exists (taken s2 s3).
  destruct Ht as [Ht|[_ ->]]; [right | now left].
  unfold PR_TYPE in Ht. cbn [matches plus] in Ht.
  destruct Ht as (s4 & m4 & (m6 & (-> & a & -> & Ha & La) & ->)
                  & s5 & m5 & Hs & Hrest).
  assert (m5 = [("type", taken (a ++ s4) s4)]) as ->.
  { destruct Hs as [Hs|[_ ->]]; [|reflexivity].
    apply matches_no_groups in Hs; [exact Hs | reflexivity]. }
  destruct Hrest as (s6 & m7 & (_ & ->) & Hstar).
  apply matches_no_groups in Hstar; [|reflexivity]. subst m2.
  rewrite taken_app. exists a. repeat split; auto.
  intros ->. simpl in La. lia.
Qed.

Lemma pr_match_desc s m :
  re_match PR_RE s = Some m -> exists de, group m "desc" = Some de.
Proof.
  intros H. destruct (pr_match_groups s m H) as (de & [->|(ty & -> & _)]);
    now exists de.
Qed.

(** The groups of any match of [CHANGELOG_RE]: a URL. *)
Lemma changelog_match_url s m :
  re_match CHANGELOG_RE s = Some m -> exists u, m = [("url", u)] /\ u <> "".
Proof.
  intros H. apply re_match_sound in H as (s' & H).
  unfold CHANGELOG_RE in H. cbn [matches] in H.
  destruct H as (s1 & m1 & (-> & -> & _) & s2 & m2 & (-> & ->)
                 & s3 & m3 & (-> & a & -> & _) & m4 & Hu & ->).
  destruct Hu as (s4 & m5 & (-> & ->) & s5 & m6 & Ho & s6 & m7 & (-> & ->) & Hp).
  unfold plus in Hp. cbn [matches] in Hp. destruct Hp as (-> & b & -> & _).
  assert (exists o, s4 = o ++ "://" ++ b ++ s' /\ m6 = []) as (o & -> & ->).
  { destruct Ho as [[-> ->]|[-> ->]]; [now exists "s" | now exists ""]. }
  exists ("http" ++ o ++ "://" ++ b). split; [|discriminate].
  replace ("http" ++ o ++ "://" ++ b ++ s')
    with (("http" ++ o ++ "://" ++ b) ++ s') by str_eq.
  now rewrite taken_app.
Qed.

End Process.

(* ================================================================= *)
(** ** The parser *)

Module ParserFacts.
Import PatternFacts PrLine Process.

Lemma lower_one_line s : all is_lower s = true -> one_line s = true.
Proof. intros H. now apply nonspace_one_line, all_lower_nonspace. Qed.

Lemma name_one_line s : all is_name s = true -> one_line s = true.
Proof. intros H. now apply nonspace_one_line, all_name_nonspace. Qed.

(** Parsing a text of one line is one turn of the loop. *)
Lemma parse_notes_one_line line :
  one_line line = true -> line <> "" ->
  parse_notes line = (st <- process_line ([], None) line ;; Ok st).
Proof.
  intros H1 H2. unfold parse_notes. now rewrite splitlines_one_line.
Qed.

Lemma pr_line_shape t d u secure rest l r0 :
  d = l ++ strip d ++ r0 ->
  pr_line t d u (http_url secure rest)
  = "* " ++ t ++ ": " ++ l ++ strip d ++ r0 ++ " by @" ++ u ++ " in http"
      ++ (if secure then "s" else "") ++ "://" ++ rest.
Proof.
  intros E. unfold pr_line, http_url. rewrite E at 1. str_eq.
Qed.

End ParserFacts.
Import ParserFacts.

(** C1, as the code has it.  For a type [t] of lower-case letters, a
    description [d] of one line with a character that is not white space,
    a user name [u] of word characters and hyphens and a URL [http://] or
    [https://] followed by characters that are not white space (none of
    [t], [u] and what follows [://] empty), the pattern matches the line
    [* t: d by @u in <url>] with the type [t] and the description [d]
    trimmed, the attribution and the link left out; parsing the line
    stores this one entry under the heading of [t], or nothing at all
    when [t] is one of build, ci and chore. *)
Theorem parse_notes_pr_line :
  forall (t d u : string) (secure : bool) (rest : string),
    all is_lower t = true -> t <> "" ->
    one_line d = true -> strip d <> "" ->
    all is_name u = true -> u <> "" ->
    all is_nonspace rest = true -> rest <> "" ->
    let line := pr_line t d u (http_url secure rest) in
    re_match PR_RE line = Some [("desc", strip d); ("type", t)]
    /\ parse_notes line
       = Ok (if in_set t ["build"; "ci"; "chore"] then []
             else [(heading_of t, [strip d])],
             None).
Proof.
  intros t d u secure rest Ht Htne Hd Hdne Hu Hune Hr Hrne line.
  destruct (strip_parts d Hdne) as (l & r0 & Ed & Hl & Hr0 & Hfirst & Hlast).
  assert (Hd' : one_line (strip d) = true).
  { rewrite Ed, !one_line_app in Hd.
    apply andb_true_iff in Hd as [_ Hd]. now apply andb_true_iff in Hd as [Hd _]. }
  assert (Hm : re_match PR_RE line = Some [("desc", strip d); ("type", t)]).
  { unfold line. rewrite (pr_line_shape t d u secure rest l r0 Ed).
    apply PrLine.pr_line_groups; auto.
    - now apply one_line_dot.
    - destruct secure; auto. }
  split; [exact Hm|].
  destruct (PrLine.last_char rest Hrne) as (b & c & Er).
  assert (Hc : is_space c = false).
  { apply nonspace_iff. apply (PrLine.all_last is_nonspace b). now rewrite <- Er. }
  assert (Hline : strip line = line).
  { unfold line, pr_line, http_url. rewrite Er.
    apply strip_fixed with
      (b := "* " ++ t ++ ": " ++ d ++ " by @" ++ u ++ " in http"
              ++ (if secure then "s" else "") ++ "://" ++ b) (c := c);
      [reflexivity | exact Hc | str_eq]. }
  assert (Hone : one_line line = true).
  { unfold line, pr_line, http_url. rewrite !one_line_app.
    rewrite (lower_one_line t Ht), Hd, (name_one_line u Hu),
      (nonspace_one_line rest Hr).
    now destruct secure. }
  rewrite parse_notes_one_line by (auto; discriminate).
  rewrite (Process.process_line_pr _ line
             [("desc", strip d); ("type", t)] (strip d)).
  - simpl group. simpl or_empty. cbn [bind].
    destruct Hfirst as (x & a & E1 & Hx). destruct Hlast as (b' & c' & E2 & Hc').
    assert (Hs : strip (strip d) = strip d).
    { rewrite E1. apply strip_fixed with (b := b') (c := c'); auto.
      now rewrite <- E1. }
    rewrite Hs. unfold SKIP_TYPES.
    now destruct (in_set t ["build"; "ci"; "chore"]).
  - rewrite Hline.
    destruct (re_match CHANGELOG_RE line) eqn:E; [|reflexivity].
    assert (H : re_match CHANGELOG_RE line <> None) by congruence.
    apply PrLine.changelog_not_bullet in H. discriminate H.
  - now rewrite Hline.
  - reflexivity.
Qed.

Lemma parse_notes_pr_line_witness :
  parse_notes "* feat: add dark mode by @alice in https://github.com/x/y/pull/1"
  = Ok ([("What's New", ["add dark mode"])], None).
Proof.
  exact (proj2 (parse_notes_pr_line "feat" "add dark mode" "alice" true
                  "github.com/x/y/pull/1"
                  eq_refl ltac:(discriminate) eq_refl
                  ltac:(vm_compute; discriminate)
                  eq_refl ltac:(discriminate) eq_refl ltac:(discriminate))).
Defined.

(** The line [* feat:  by @bob in https://x] has the shape of C1 with an
    empty description, and the entry stored is [by @bob]; a line of type
    chore stores no entry. *)
Lemma pr_line_blank_description :
  pr_line "feat" "" "bob" (http_url true "x") = "* feat:  by @bob in https://x"
  /\ strip "" = ""
  /\ parse_notes "* feat:  by @bob in https://x"
     = Ok ([("What's New", ["by @bob"])], None)
  /\ parse_notes "* feat:  by @bob in https://x"
     <> Ok ([("What's New", [strip ""])], None)
  /\ pr_line "chore" "bump" "bob" (http_url true "x")
     = "* chore: bump by @bob in https://x"
  /\ parse_notes "* chore: bump by @bob in https://x" = Ok ([], None).
Proof. repeat split; try reflexivity. discriminate. Qed.

Module BulletFacts.
Import Run PatternFacts PrLine Process.

(** A line that [PR_RE] matches starts with an asterisk and white space. *)
Lemma pr_match_bullet s m : re_match PR_RE s = Some m -> bullet_start s = true.
Proof.
  intros H. apply re_match_sound in H as (s' & H).
  unfold PR_RE, PR_BULLET in H. cbn [matches plus] in H.
  destruct H as (s1 & m1 & (s2 & m2 & (-> & -> & _) & s3 & m3 & (-> & ->)
                            & _ & a & -> & Ha & La) & _).
  destruct a as [|c a]; [simpl in La; lia|].
  simpl in Ha |- *. now apply andb_true_iff in Ha as [Hc _].
Qed.

Lemma lower_head_not y t c :
  all is_lower (String y t) = true -> is_lower c = false -> y <> c.
Proof.
  simpl. intros H Hc ->. apply andb_true_iff in H as [H _]. congruence.
Qed.

Lemma scope_text_nonspace scope :
  plain_scope scope = true -> all is_nonspace (scope_text scope) = true.
Proof.
  destruct scope as [sc|]; [|reflexivity]. simpl. intros H.
  rewrite all_app. simpl. rewrite andb_true_r.
  revert H. apply all_impl. intros c Hc.
  unfold is_scope_char in Hc. now apply andb_true_iff in Hc as [_ Hc].
Qed.

Lemma scope_text_inner sc :
  all is_scope_char sc = true -> all is_not_rparen sc = true.
Proof.
  apply all_impl. intros c Hc.
  unfold is_scope_char in Hc. now apply andb_true_iff in Hc as [Hc _].
Qed.

(** In a type prefix alone, the pattern of the prefix can only be matched
    up to the end. *)
Lemma type_prefix_alone n t scope m s' m' :
  all is_lower t = true -> plain_scope scope = true ->
  matches n PR_TYPE (type_prefix t scope) m s' m' -> s' = "".
Proof.
  intros Ht Hsc. unfold PR_TYPE, type_prefix. cbn [matches plus].
  intros (s4 & m4 & (m6 & (_ & a & E & Ha & _) & _) & s5 & m5 & Hs
          & s6 & m7 & (E5 & _) & Hstar).
  assert (Hstop : stops is_lower (scope_text scope ++ ":") = true)
    by now destruct scope.
  destruct (run_prefix is_lower t _ a s4 E Ht Hstop Ha) as (e & -> & ->).
  rewrite all_app in Ht. apply andb_true_iff in Ht as [_ He].
  assert (s6 = "") as ->.
  { destruct Hs as [Hs|[-> _]].
    - unfold PR_SCOPE in Hs. cbn [matches star] in Hs.
      destruct Hs as (s7 & m8 & (E7 & _) & s8 & m9 & (_ & x & -> & Hx & _)
                      & E8 & _).
      subst s8 s5.
      destruct e as [|y e];
        [|exfalso; injection E7 as E7 _; now apply (lower_head_not y e "(" He)].
      destruct scope as [sc|]; [|discriminate E7]. injection E7 as E7.
      assert (E7' : sc ++ "):" = x ++ ")" ++ ":" ++ s6)
        by (transitivity ((sc ++ ")") ++ ":"); [str_eq | exact E7]).
      destruct (run_prefix is_not_rparen sc "):" x (")" ++ ":" ++ s6) E7'
                  (scope_text_inner sc Hsc) eq_refl Hx) as (e' & -> & E').
      destruct e' as [|y e'].
      + injection E' as E'. symmetry in E'.
        destruct s6; [reflexivity | discriminate E'].
      + exfalso. injection E' as E' _. subst y.
        apply scope_text_inner in Hsc. rewrite all_app in Hsc.
        apply andb_true_iff in Hsc as [_ Hsc]. discriminate Hsc.
    - destruct e as [|y e];
        [|exfalso; injection E5 as E5 _; now apply (lower_head_not y e ":" He)].
      destruct scope as [sc|]; [discriminate E5|]. now injection E5 as <-. }
  unfold star in Hstar. cbn [matches] in Hstar.
  destruct Hstar as (_ & a' & E' & _). symmetry in E'.
  destruct a'; [exact E' | discriminate E'].
Qed.

(** The groups of a bullet and a type prefix alone: the prefix itself is
    the description. *)
Lemma bare_prefix_groups t scope :
  all is_lower t = true -> t <> "" -> plain_scope scope = true ->
  re_match PR_RE ("* " ++ type_prefix t scope)
  = Some [("desc", type_prefix t scope)].
Proof.
  intros Ht Htne Hsc. unfold re_match. set (n := String.length _).
  assert (Hns : all is_nonspace (type_prefix t scope) = true).
  { unfold type_prefix.
    now rewrite !all_app, (all_lower_nonspace t Ht), (scope_text_nonspace _ Hsc). }
  assert (Hhead : exists y tl, type_prefix t scope = String y tl
                               /\ is_space y = false).
  { destruct t as [|y t]; [congruence|]. exists y, (t ++ scope_text scope ++ ":").
    split; [reflexivity|]. simpl in Ht. apply andb_true_iff in Ht as [Hy _].
    now apply lower_not_space. }
  unfold PR_RE, PR_BULLET. rewrite !run_assoc.
  rewrite run_bol by reflexivity.
  rewrite run_assoc, (run_lit n "*" _ _ (" " ++ type_prefix t scope))
    by reflexivity.
  apply run_plus with (a := " ") (b := type_prefix t scope);
    [reflexivity | reflexivity | discriminate | |].
  { destruct Hhead as (y & tl & -> & Hy). simpl. now rewrite Hy. }
  rewrite run_opt_fail.
  - unfold PR_DESC.
    apply run_group_lazy with (a := type_prefix t scope) (b := "");
      [now rewrite app_empty_r | now apply all_nonspace_dot
      | destruct Hhead as (y & tl & -> & _); discriminate | reflexivity |].
    intros a1 a2 E Hne. apply exec_none. intros s' m' Hm.
    apply tail_cut in Hm as (_ & _ & Hsp). exfalso.
    rewrite E, all_app in Hns. apply andb_true_iff in Hns as [_ H2].
    destruct a2 as [|y a2]; [congruence|]. simpl in H2, Hsp.
    apply andb_true_iff in H2 as [Hy _]. now rewrite Hy in Hsp.
  - intros s' m' Hm. apply type_prefix_alone in Hm; [|exact Ht|exact Hsc].
    now subst s'.
Qed.

End BulletFacts.

(** C8, as the code has it.  A line that, once trimmed, neither starts
    with an asterisk followed by a white space character nor matches the
    changelog pattern leaves the sections and the URL as they are, and
    raises nothing. *)
Theorem process_line_no_bullet :
  forall (st : notes) (line : string),
    bullet_start (strip line) = false ->
    re_match CHANGELOG_RE (strip line) = None ->
    process_line st line = Ok st.
Proof.
  intros [secs url] line Hb Hc. unfold process_line. rewrite Hc.
  destruct (re_match PR_RE (strip line)) as [m|] eqn:Hp; [|reflexivity].
  apply BulletFacts.pr_match_bullet in Hp. congruence.
Qed.

Lemma process_line_no_bullet_witness :
  process_line ([], None) "feat: x" = Ok ([], None).
Proof.
  exact (process_line_no_bullet ([], None) "feat: x" eq_refl eq_refl).
Defined.

(** The line of an asterisk, a tab and [feat: x] does not start with an
    asterisk and a space, and is no changelog line, yet it gives an
    entry. *)
Lemma tab_bullet_gives_entry :
  let line := String "*" (String Chars.TAB "feat: x") in
  startswith "* " (strip line) = false
  /\ re_match CHANGELOG_RE (strip line) = None
  /\ parse_notes line = Ok ([("What's New", ["x"])], None)
  /\ parse_notes line <> Ok ([], None).
Proof. repeat split; try reflexivity. discriminate. Qed.

(** C7, as the code has it.  A bullet line whose type prefix, [<type>:]
    or [<type>(<scope>):] with a type of lower-case letters and a scope
    without white space, is followed by white space only raises nothing
    and stores one entry; the description must have a character, so the
    pattern takes the prefix itself as the description of a line without
    type: the entry is the text of the prefix, under "Other". *)
Theorem pr_line_without_description :
  forall (secs : sections) (url : option string) (t : string)
         (scope : option string) (ws : string),
    all is_lower t = true -> t <> "" -> plain_scope scope = true ->
    all is_space ws = true ->
    process_line (secs, url) ("* " ++ type_prefix t scope ++ ws)
    = Ok (setdefault_append secs "Other" (type_prefix t scope), url).
Proof.
  intros secs url t scope ws Ht Htne Hsc Hws.
  assert (Hline : strip ("* " ++ type_prefix t scope ++ ws)
                  = "* " ++ type_prefix t scope).
  { unfold strip, type_prefix.
    change (lstrip ("* " ++ (t ++ scope_text scope ++ ":") ++ ws))
      with ("* " ++ (t ++ scope_text scope ++ ":") ++ ws).
    replace ("* " ++ (t ++ scope_text scope ++ ":") ++ ws)
      with (("* " ++ t ++ scope_text scope) ++ String ":" ws) by str_eq.
    rewrite rstrip_ends_nonspace by auto. str_eq. }
  rewrite (Process.process_line_pr (secs, url) _
             [("desc", type_prefix t scope)] (type_prefix t scope)).
  - simpl. f_equal. f_equal. f_equal.
    destruct t as [|y t]; [congruence|].
    simpl in Ht. apply andb_true_iff in Ht as [Hy _].
    apply strip_fixed with (b := String y t ++ scope_text scope) (c := ":"%char);
      [now apply lower_not_space | reflexivity | unfold type_prefix; str_eq].
  - rewrite Hline.
    destruct (re_match CHANGELOG_RE ("* " ++ type_prefix t scope)) eqn:E;
      [|reflexivity].
    assert (H : re_match CHANGELOG_RE ("* " ++ type_prefix t scope) <> None)
      by congruence.
    apply PrLine.changelog_not_bullet in H. discriminate H.
  - rewrite Hline. now apply BulletFacts.bare_prefix_groups.
  - reflexivity.
Qed.

Lemma pr_line_without_description_witness :
  process_line ([], None) "* feat: " = Ok ([("Other", ["feat:"])], None)
  /\ process_line ([], None) "* fix(ui):" = Ok ([("Other", ["fix(ui):"])], None).
Proof.
  split.
  - exact (pr_line_without_description [] None "feat" None " "
             eq_refl ltac:(discriminate) eq_refl eq_refl).
  - exact (pr_line_without_description [] None "fix" (Some "ui") ""
             eq_refl ltac:(discriminate) eq_refl eq_refl).
Defined.

(** For [* feat: ] the entry stored is not the empty string under
    "What's New", but [feat:] under "Other". *)
Lemma empty_description_not_stored_empty :
  parse_notes "* feat: " = Ok ([("Other", ["feat:"])], None)
  /\ parse_notes "* feat: " <> Ok ([("What's New", [""])], None).
Proof. split; [reflexivity | discriminate]. Qed.

Module ChangelogFacts.
Import Run PatternFacts PrLine Process.

(** The URL of a changelog line: the longest run without white space. *)
Lemma changelog_line_groups gap secure rest more :
  all is_space gap = true -> all is_nonspace rest = true -> rest <> "" ->
  space_first more = true ->
  re_match CHANGELOG_RE (changelog_line gap secure rest more)
  = Some [("url", http_url secure rest)].
Proof.
  intros Hg Hr Hrne Hm. unfold re_match. set (n := String.length _).
  unfold changelog_line, http_url, CHANGELOG_RE.
  set (o := if secure then "s" else "").
  rewrite run_bol by reflexivity.
  rewrite (run_lit n "**Full Changelog**:" _ _
             (gap ++ "http" ++ o ++ "://" ++ rest ++ more)) by str_eq.
  apply run_star with (a := gap) (b := "http" ++ o ++ "://" ++ rest ++ more);
    [str_eq | exact Hg | reflexivity |].
  rewrite run_group.
  rewrite (run_lit n "http" _ _ (o ++ "://" ++ rest ++ more)) by reflexivity.
  assert (Hrest : forall K : string -> groups -> option groups,
            K more [] = Some [("url", "http" ++ o ++ "://" ++ rest)] ->
            exec n (Lit "://" +> plus is_nonspace) ("://" ++ rest ++ more) [] K
            = Some [("url", "http" ++ o ++ "://" ++ rest)]).
  { intros K HK. rewrite (run_lit n "://" _ _ (rest ++ more)) by reflexivity.
    now apply exec_plus_max. }
  assert (HK : Some [("url", taken ("http" ++ o ++ "://" ++ rest ++ more) more)]
               = Some [("url", "http" ++ o ++ "://" ++ rest)]).
  { replace ("http" ++ o ++ "://" ++ rest ++ more)
      with (("http" ++ o ++ "://" ++ rest) ++ more) by str_eq.
    now rewrite taken_app. }
  destruct secure; subst o.
  - apply run_opt_take.
    rewrite (run_lit n "s" _ _ ("://" ++ rest ++ more)) by reflexivity.
    apply Hrest. exact HK.
  - rewrite run_opt_skip; [apply Hrest; exact HK|].
    intros s' m' [E _]. discriminate E.
Qed.

(** A changelog line sets the URL and leaves the sections. *)
Lemma process_line_changelog (st : notes) line m :
  re_match CHANGELOG_RE (strip line) = Some m ->
  process_line st line = Ok (fst st, group m "url").
Proof. intros H. destruct st as [secs url]. unfold process_line. now rewrite H. Qed.

End ChangelogFacts.

(** C10.  The changelog pattern is anchored at the start only.  For a line
    whose trimmed form is [**Full Changelog**:], white space, [http://] or
    [https://] and a run of characters that are not white space, followed
    by nothing or by white space and any text, the URL captured is the
    scheme with that run, the longest one, and the text after it is
    ignored: the line sets the URL and adds no entry. *)
Theorem changelog_prefix_anchored :
  forall (secs : sections) (url : option string) (line gap : string)
         (secure : bool) (rest more : string),
    all is_space gap = true ->
    all is_nonspace rest = true -> rest <> "" ->
    space_first more = true ->
    strip line = changelog_line gap secure rest more ->
    re_match CHANGELOG_RE (strip line) = Some [("url", http_url secure rest)]
    /\ process_line (secs, url) line = Ok (secs, Some (http_url secure rest)).
Proof.
  intros secs url line gap secure rest more Hg Hr Hrne Hm Hline.
  assert (H : re_match CHANGELOG_RE (strip line)
              = Some [("url", http_url secure rest)])
    by (rewrite Hline; now apply ChangelogFacts.changelog_line_groups).
  split; [exact H|].
  now rewrite (ChangelogFacts.process_line_changelog (secs, url) line _ H).
Qed.

Lemma changelog_prefix_anchored_witness :
  process_line ([("Fixes", ["a"])], Some "http://old")
    "**Full Changelog**: https://github.com/x/y/compare/v1...v2 and more"
  = Ok ([("Fixes", ["a"])], Some "https://github.com/x/y/compare/v1...v2").
Proof.
  exact (proj2 (changelog_prefix_anchored [("Fixes", ["a"])] (Some "http://old")
                  "**Full Changelog**: https://github.com/x/y/compare/v1...v2 and more"
                  " " true "github.com/x/y/compare/v1...v2" " and more"
                  eq_refl eq_refl ltac:(discriminate) eq_refl eq_refl)).
Defined.

Module TypeFacts.
Import Run PatternFacts PrLine Process.

(** After [* ] and a word that a capital letter keeps from being a type,
    a match has no type, and its description starts with that word. *)
Lemma upper_prefix_groups a c rest m :
  all is_lower a = true -> is_upper c = true ->
  re_match PR_RE ("* " ++ a ++ String c rest) = Some m ->
  exists tl, m = [("desc", a ++ String c tl)].
Proof.
  intros Ha Hc H. apply re_match_sound in H as (s' & H).
  assert (Hcl : is_lower c = false) by now apply upper_not_lower.
  assert (Hcs : is_space c = false) by now apply upper_not_space.
  unfold PR_RE, PR_BULLET in H. cbn [matches plus] in H.
  destruct H as (s1 & m1 & (s2 & m2 & (Es2 & Em2 & _) & s3 & m3 & (E3 & Em3)
                            & E1 & ws & Ews & Hws & Lws)
                 & s4 & m4 & Ht & s5 & m5 & Hd & Htl).
  subst m1 m3 m2 s2. injection E3 as <-. symmetry in Ews.
  (* the bullet takes the one space *)
  assert (s1 = a ++ String c rest) as ->.
  { assert (Hstop : stops is_space (a ++ String c rest) = true).
    { destruct a as [|y a]; simpl; [now rewrite Hcs|].
      simpl in Ha. apply andb_true_iff in Ha as [Hy _].
      now rewrite (lower_not_space _ Hy). }
    destruct (run_prefix is_space " " (a ++ String c rest) ws s1 (eq_sym Ews)
                eq_refl Hstop Hws) as (e & E & ->).
    destruct ws as [|w ws]; [simpl in Lws; lia|].
    injection E as _ E. destruct ws; [|discriminate E].
    simpl in E. now subst e. }
  (* no type can be read *)
  assert (s4 = a ++ String c rest /\ m4 = []) as (-> & ->).
  { destruct Ht as [Ht|[-> ->]]; [exfalso | auto].
    unfold PR_TYPE in Ht. cbn [matches plus] in Ht.
    destruct Ht as (s6 & m6 & (m7 & (_ & t & Et & Hlt & _) & _) & s7 & m8 & Hs
                    & s8 & m9 & (E8 & _) & _).
    assert (Hstop : stops is_lower (String c rest) = true)
      by (simpl; now rewrite Hcl).
    destruct (run_prefix is_lower a (String c rest) t s6 Et Ha Hstop Hlt)
      as (e & -> & ->).
    rewrite all_app in Ha. apply andb_true_iff in Ha as [_ He].
    assert (Hhead : exists y tl, e ++ String c rest = String y tl
                                 /\ y <> "("%char /\ y <> ":"%char).
    { destruct e as [|y e].
      - exists c, rest. repeat split; intros ->; discriminate Hc.
      - exists y, (e ++ String c rest). simpl in He.
        apply andb_true_iff in He as [Hy _].
        repeat split; intros ->; discriminate Hy. }
    destruct Hhead as (y & tl & Ey & Hy1 & Hy2). rewrite Ey in *.
    destruct Hs as [Hs|[-> _]].
    - unfold PR_SCOPE in Hs. cbn [matches] in Hs.
      destruct Hs as (s9 & m10 & (E9 & _) & _). now injection E9.
    - now injection E8. }
  (* the description reaches past the capital letter *)
  apply tail_cut in Htl as (-> & _ & Hsp).
  unfold PR_DESC, plus_lazy in Hd. cbn [matches] in Hd.
  destruct Hd as (m6 & (-> & d & Ed & _) & ->).
  rewrite Ed, taken_app.
  assert (Hns : all is_nonspace (a ++ String c "") = true).
  { rewrite all_app, (all_lower_nonspace a Ha). simpl.
    unfold is_nonspace. now rewrite Hcs. }
  replace (a ++ String c rest) with ((a ++ String c "") ++ rest) in Ed by str_eq.
  destruct (app_eq_app _ _ _ _ Ed) as [[e [-> _]]|[e [E ->]]].
  - exists e. f_equal. f_equal. str_eq.
  - destruct e as [|y e].
    + exists "". rewrite app_empty_r in E. now rewrite E.
    + exfalso. rewrite E, all_app in Hns.
      apply andb_true_iff in Hns as [_ Hns]. simpl in Hns, Hsp.
      apply andb_true_iff in Hns as [Hy _]. now rewrite Hy in Hsp.
Qed.

Lemma heading_other ty :
  In ty ["feat"; "fix"; "perf"; "refactor"; "docs"; "style"; "test"]
  \/ heading_of ty = "Other".
Proof.
  unfold heading_of.
  repeat match goal with
         | |- context [String.eqb ty ?k] =>
             destruct (String.eqb_spec ty k) as [->|]; [left; simpl; tauto|]
         end.
  now right.
Qed.

End TypeFacts.

(** C2.  Where the entry of a line that [PR_RE] matches goes depends on
    the type only, a run of lower-case letters or, without type prefix,
    the empty string: nowhere for build, ci and chore; to the heading of
    the table for its seven keys; to "Other" for any other type, the empty
    one included.  A prefix with a capital letter, such as [Feat:], is no
    type: the line has the empty type and the prefix starts its
    description. *)
Theorem process_line_destination :
  forall (secs : sections) (url : option string) (line : string) (m : groups),
    re_match CHANGELOG_RE (strip line) = None ->
    re_match PR_RE (strip line) = Some m ->
    let ty := or_empty (group m "type") in
    exists de : string,
      group m "desc" = Some de
      /\ process_line (secs, url) line
         = Ok (if in_set ty ["build"; "ci"; "chore"] then secs
               else setdefault_append secs (heading_of ty) (strip de),
               url)
      /\ all is_lower ty = true
      /\ (heading_of "feat" = "What's New" /\ heading_of "fix" = "Fixes"
          /\ heading_of "perf" = "Performance"
          /\ heading_of "refactor" = "Under the Hood"
          /\ heading_of "docs" = "Documentation" /\ heading_of "style" = "Style"
          /\ heading_of "test" = "Testing" /\ heading_of "" = "Other")
      /\ (In ty ["feat"; "fix"; "perf"; "refactor"; "docs"; "style"; "test"]
          \/ heading_of ty = "Other")
      /\ forall (a : string) (c : ascii) (rest : string),
           strip line = "* " ++ a ++ String c rest ->
           all is_lower a = true -> is_upper c = true ->
           ty = "" /\ exists tl, de = a ++ String c tl.
Proof.
  intros secs url line m Hc Hp ty.
  destruct (Process.pr_match_groups _ _ Hp) as (de & Hm).
  exists de.
  assert (Hd : group m "desc" = Some de)
    by (destruct Hm as [->|(t & -> & _)]; reflexivity).
  split; [exact Hd|].
  split; [exact (Process.process_line_pr (secs, url) line m de Hc Hp Hd)|].
  split; [destruct Hm as [->|(t & -> & Ht & _)]; [reflexivity | exact Ht]|].
  split; [repeat split; reflexivity|].
  split; [apply TypeFacts.heading_other|].
  intros a c rest E Ha Hu. rewrite E in Hp.
  destruct (TypeFacts.upper_prefix_groups a c rest m Ha Hu Hp) as (tl & Em).
  subst m. injection Hd as <-. split; [reflexivity | now exists tl].
Qed.

Lemma process_line_destination_witness :
  process_line ([], None) "* Feat: add x"
  = Ok ([("Other", ["Feat: add x"])], None).
Proof.
  destruct (process_line_destination [] None "* Feat: add x"
              [("desc", "Feat: add x")] eq_refl eq_refl)
    as (de & Hde & Hp & _).
  injection Hde as <-. exact Hp.
Defined.

Module LoopFacts.
Import Process ChangelogFacts.

(** One turn of the loop: a changelog line sets the URL and leaves the
    sections; any other line leaves the URL and never looks at it. *)
Lemma process_line_cases secs url line :
  (is_changelog line = true
   /\ process_line (secs, url) line = Ok (secs, captured_url line))
  \/ (is_changelog line = false
      /\ exists secs', forall y, process_line (secs, y) line = Ok (secs', y)).
Proof.
  unfold is_changelog, captured_url.
  destruct (re_match CHANGELOG_RE (strip line)) as [m|] eqn:Hc.
  - left. split; [reflexivity|].
    exact (process_line_changelog (secs, url) line m Hc).
  - right. split; [reflexivity|].
    destruct (re_match PR_RE (strip line)) as [m|] eqn:Hp.
    + destruct (pr_match_desc _ _ Hp) as (de & Hd).
      exists (if in_set (or_empty (group m "type")) SKIP_TYPES then secs
              else setdefault_append secs
                     (heading_of (or_empty (group m "type"))) (strip de)).
      intros y. exact (process_line_pr (secs, y) line m de Hc Hp Hd).
    + exists secs. intros y. unfold process_line. now rewrite Hc, Hp.
Qed.

Lemma last_line_cons l ls :
  last_line (l :: ls)
  = match last_line ls with Some z => Some z | None => Some l end.
Proof.
  destruct ls as [|l' ls]; [reflexivity|].
  change (last_line (l :: l' :: ls)) with (last_line (l' :: ls)).
  assert (H : exists z, last_line (l' :: ls) = Some z).
  { clear l. revert l'. induction ls as [|x ls IH]; intros l'.
    - now exists l'.
    - destruct (IH x) as (z & Hz). exists z. exact Hz. }
  destruct H as (z & ->). reflexivity.
Qed.

(** The loop over any lines, from any state. *)
Lemma parse_lines_changelog lines : forall secs url,
  exists secs',
    parse_lines lines (secs, url)
    = Ok (secs',
          match last_line (filter is_changelog lines) with
          | Some l => captured_url l
          | None => url
          end)
    /\ forall y,
         parse_lines (filter (fun l => negb (is_changelog l)) lines) (secs, y)
         = Ok (secs', y).
Proof.
  induction lines as [|l ls IH]; intros secs url.
  - exists secs. split; [reflexivity | intros y; reflexivity].
  - cbn [parse_lines filter].
    destruct (process_line_cases secs url l) as [[Hc Hp]|[Hc (secs1 & Hp)]];
      rewrite Hc; cbn [negb].
    + destruct (IH secs (captured_url l)) as (secs' & H1 & H2).
      exists secs'. split; [|exact H2].
      rewrite Hp. cbn [bind]. rewrite H1, last_line_cons.
      now destruct (last_line (filter is_changelog ls)).
    + destruct (IH secs1 url) as (secs' & H1 & H2).
      exists secs'. split.
      * rewrite Hp. cbn [bind]. exact H1.
      * intros y. cbn [parse_lines]. rewrite Hp. cbn [bind]. apply H2.
Qed.

(** Parsing raises nothing. *)
Lemma parse_notes_total raw : exists st, parse_notes raw = Ok st.
Proof.
  destruct (parse_lines_changelog (splitlines raw) [] None) as (secs & H & _).
  eexists. exact H.
Qed.

End LoopFacts.

(** C6.  The URL that the parser returns is the one captured from the
    last line that matches the changelog pattern, and there is none when
    no line matches; the lines that match it give no entry: the sections
    are those of the text without these lines.  Parsing raises nothing. *)
Theorem changelog_last_wins :
  forall raw : string,
    exists secs : sections,
      parse_notes raw
      = Ok (secs,
            match last_line (filter is_changelog (splitlines raw)) with
            | Some line => captured_url line
            | None => None
            end)
      /\ parse_lines
           (filter (fun line => negb (is_changelog line)) (splitlines raw))
           ([], None)
         = Ok (secs, None)
      /\ forall line : string,
           is_changelog line = false
           \/ exists u, captured_url line = Some u /\ u <> "".
Proof.
  intros raw.
  destruct (LoopFacts.parse_lines_changelog (splitlines raw) [] None)
    as (secs & H1 & H2).
  exists secs. split; [exact H1|]. split; [apply H2|].
  intros line. unfold is_changelog, captured_url.
  destruct (re_match CHANGELOG_RE (strip line)) as [m|] eqn:Hc; [right | now left].
  destruct (Process.changelog_match_url _ _ Hc) as (u & -> & Hu).
  now exists u.
Qed.

(** C9, as the code has it.  Run as [prog args...], the script prints the
    usage message on standard error and exits with status 1 exactly when
    fewer than two arguments follow the name of the program, the flag
    [--html] counted like any other argument; with two or more it reads
    the file named by the first, and exits with status 0 and the rendered
    notes on standard output unless reading the file raises, which ends
    the run with that exception.  The positional arguments are among the
    arguments counted, so a run with both of them is never a usage
    error. *)
Theorem main_exit_status :
  forall (prog : string) (args : list string) (read_text : string -> py string),
    List.length (positional args) <= List.length args
    /\ ((List.length args < 2
         /\ main (prog :: args) read_text
            = Exit 1 "" ("Usage: " ++ prog ++ " <raw_notes_file> <tag> [--html]"
                           ++ Str.LF))
        \/ (2 <= List.length args
            /\ ((exists raw out,
                   read_text (nth 0 args "") = Ok raw
                   /\ main (prog :: args) read_text = Exit 0 out "")
                \/ (exists exc,
                      read_text (nth 0 args "") = Raise exc
                      /\ main (prog :: args) read_text = Uncaught exc)))).
Proof.
  intros prog args read_text.
  split; [apply List.filter_length_le|]. unfold main.
  destruct (Nat.ltb_spec (List.length (prog :: args)) 3) as [Hlt|Hge].
  - left. simpl in Hlt. split; [lia | reflexivity].
  - right. simpl in Hge. split; [lia|].
    change (nth 1 (prog :: args) "") with (nth 0 args "").
    destruct (read_text (nth 0 args "")) as [raw|exc]; [left | right].
    + destruct (LoopFacts.parse_notes_total raw) as ([secs url] & Hp).
      exists raw. cbn [bind]. rewrite Hp. cbn [bind].
      destruct (in_set "--html" (prog :: args)); eexists; split; reflexivity.
    + exists exc. split; reflexivity.
Qed.

(** The run [prog notes.md --html] has one positional argument only, the
    tag is missing; yet it is no usage error: [--html] is taken as the
    tag, the file is read and the run exits with status 0. *)
Lemma html_flag_counts_as_argument :
  let args := ["notes.md"; "--html"] in
  let read_text := fun _ : string => Ok "* fix: a" in
  positional args = ["notes.md"]
  /\ List.length (positional args) < 2
  /\ main ("prog" :: args) read_text
     = Exit 0 ("<h2>Fixes</h2>" ++ Str.LF ++ "<ul>" ++ Str.LF
               ++ "  <li>a</li>" ++ Str.LF ++ "</ul>" ++ Str.LF) ""
  /\ main ("prog" :: args) read_text
     <> Exit 1 "" ("Usage: prog <raw_notes_file> <tag> [--html]" ++ Str.LF).
Proof.
  repeat split; try reflexivity.
  - simpl. lia.
  - discriminate.
Qed.

(* ================================================================= *)
(** ** The sections that the parser builds *)

Module DictFacts.
Import Layout.

(** Looking up after [setdefault(key, []).append(x)]. *)
Lemma get_setdefault_append d key x h :
  get (setdefault_append d key x) h
  = if String.eqb key h then Some (entries d key ++ [x])%list else get d h.
Proof.
  unfold entries. induction d as [|[k v] d IH]; simpl.
  - now destruct (String.eqb key h).
  - destruct (String.eqb_spec k key) as [->|Hk]; simpl.
    + destruct (String.eqb_spec key h) as [->|Hh]; reflexivity.
    + rewrite IH. destruct (String.eqb_spec key h) as [->|Hh].
      * destruct (String.eqb_spec k h) as [->|]; [congruence | reflexivity].
      * reflexivity.
Qed.

Lemma entries_setdefault_append d key x h :
  entries (setdefault_append d key x) h
  = if String.eqb key h then (entries d key ++ [x])%list else entries d h.
Proof.
  unfold entries at 1. rewrite get_setdefault_append.
  now destruct (String.eqb key h).
Qed.

(** The keys after [setdefault(key, []).append(x)]: a new key comes last. *)
Lemma keys_setdefault_append d key x :
  map fst (setdefault_append d key x)
  = if in_set key (map fst d) then map fst d else (map fst d ++ [key])%list.
Proof.
  unfold in_set. induction d as [|[k v] d IH]; simpl; [reflexivity|].
  rewrite (String.eqb_sym key k).
  destruct (String.eqb_spec k key) as [->|Hk]; simpl; [reflexivity|].
  rewrite IH. now destruct (existsb (String.eqb key) (map fst d)).
Qed.

Lemma in_set_In x xs : in_set x xs = true <-> In x xs.
Proof.
  unfold in_set. rewrite existsb_exists. split.
  - intros (y & Hy & E). apply String.eqb_eq in E. now subst y.
  - intros H. exists x. split; [exact H | apply String.eqb_refl].
Qed.

Lemma nodup_setdefault_append d key x :
  NoDup (map fst d) -> NoDup (map fst (setdefault_append d key x)).
Proof.
  intros H. rewrite keys_setdefault_append.
  destruct (in_set key (map fst d)) eqn:E; [exact H|].
  apply NoDup_app; [exact H | repeat constructor; auto |].
  - intros a Ha [<-|[]]. apply in_set_In in Ha. congruence.
Qed.

(** What holds of every key with its list still holds after an append,
    when it holds of the list appended to. *)
Lemma forall_setdefault_append (P : string * list string -> Prop) d key x :
  (forall old, old = [] \/ P (key, old) -> P (key, (old ++ [x])%list)) ->
  Forall P d -> Forall P (setdefault_append d key x).
Proof.
  intros Hstep. induction d as [|[k v] d IH]; intros H; simpl.
  - constructor; [|constructor]. apply (Hstep []). now left.
  - inversion H as [|? ? Hkv Hd]; subst.
    destruct (String.eqb_spec k key) as [->|Hk].
    + constructor; [|exact Hd]. apply Hstep. now right.
    + constructor; [exact Hkv | now apply IH].
Qed.

End DictFacts.

Module AccountFacts.
Import Layout DictFacts Process LoopFacts.

(** One turn of the loop adds the entry of the line, if it has one. *)
Lemma process_line_entry secs url line :
  exists url',
    process_line (secs, url) line
    = Ok (match line_entry line with
          | Some p => setdefault_append secs (fst p) (snd p)
          | None => secs
          end, url').
Proof.
  unfold process_line, line_entry.
  destruct (re_match CHANGELOG_RE (strip line)) as [m|]; [now eexists|].
  destruct (re_match PR_RE (strip line)) as [m|] eqn:Hp; [|now eexists].
  destruct (pr_match_desc _ _ Hp) as (de & ->). cbn [strip_opt bind].
  destruct (in_set (or_empty (group m "type")) SKIP_TYPES); now eexists.
Qed.

(** The loop adds the entries of the lines one by one. *)
Lemma parse_lines_stored lines : forall secs url,
  exists url',
    parse_lines lines (secs, url) = Ok (add_all secs (stored lines), url').
Proof.
  induction lines as [|l ls IH]; intros secs url.
  - now exists url.
  - cbn [parse_lines]. destruct (process_line_entry secs url l) as (u1 & ->).
    cbn [bind]. unfold stored. cbn [flat_map]. fold (stored ls).
    unfold add_all. rewrite fold_left_app. fold (add_all secs).
    destruct (line_entry l) as [p|]; apply IH.
Qed.

Lemma entries_add_all ps : forall secs h,
  entries (add_all secs ps) h = (entries secs h ++ under h ps)%list.
Proof.
  induction ps as [|[k e] ps IH]; intros secs h.
  - unfold under. simpl. now rewrite List.app_nil_r.
  - change (add_all secs ((k, e) :: ps))
      with (add_all (setdefault_append secs k e) ps).
    rewrite IH, entries_setdefault_append. unfold under. cbn [filter fst].
    destruct (String.eqb_spec k h) as [->|Hk]; [|reflexivity].
    cbn [map snd]. now rewrite <- List.app_assoc.
Qed.

End AccountFacts.

(* ================================================================= *)
(** ** The description that [PR_RE] captures on a trimmed line *)

Module DescFacts.
Import Run PatternFacts PrLine Process.

(** The cut that a greedy repeat is found with comes after the longest
    run, unless the rest fails there. *)
Lemma greedy_first {A : Type} cls lo s (k : string -> option A) x :
  rep_greedy cls lo s k = Some x ->
  exists w b, s = w ++ b /\ all cls w = true /\ stops cls b = true
              /\ lo <= String.length w /\ (k b = Some x \/ k b = None).
Proof.
  intros H. destruct (span cls s) as (w & b & -> & Hw & Hb).
  exists w, b. repeat split; auto.
  - destruct (rep_greedy_sound cls lo _ k x H) as (a0 & s0 & E & Ha0 & Hlo & _).
    destruct (run_prefix cls w b a0 s0 E Hw Hb Ha0) as (e & -> & _).
    rewrite length_app. lia.
  - assert (Hlo : lo <= String.length w).
    { destruct (rep_greedy_sound cls lo _ k x H) as (a0 & s0 & E & Ha0 & Hlo & _).
      destruct (run_prefix cls w b a0 s0 E Hw Hb Ha0) as (e & -> & _).
      rewrite length_app. lia. }
    destruct (k b) as [y|] eqn:Hk; [left | now right].
    rewrite (rep_greedy_max cls lo w b k y Hw Hb Hlo Hk) in H. exact H.
Qed.

Lemma seq_sound {A : Type} n r1 r2 s m (K : string -> groups -> option A) x :
  exec n (r1 +> r2) s m K = Some x ->
  exists s1 m1, matches n r1 s m s1 m1 /\ exec n r2 s1 m1 K = Some x.
Proof.
  intros H.
  exact (exec_sound n r1 s m (fun s' m' => exec n r2 s' m' K) x H).
Qed.

Lemma opt_cases {A : Type} n r1 r s m (K : string -> groups -> option A) x :
  exec n (Opt r1 +> r) s m K = Some x ->
  exec n (r1 +> r) s m K = Some x
  \/ (exec n (r1 +> r) s m K = None /\ exec n r s m K = Some x).
Proof.
  simpl. destruct (exec n r1 s m (fun s' m' => exec n r s' m' K)); auto.
Qed.

Lemma opt_none {A : Type} n r1 r s m (K : string -> groups -> option A) :
  exec n (Opt r1 +> r) s m K = None -> exec n r s m K = None.
Proof.
  simpl. now destruct (exec n r1 s m (fun s' m' => exec n r s' m' K)).
Qed.

(** What a pattern takes is a prefix of the subject. *)
Lemma matches_cut n r : forall s m s' m',
  matches n r s m s' m' -> exists a, s = a ++ s'.
Proof.
  induction r as [| |text|greedy lo cls|r1 IH1 r2 IH2|r IH|name r IH];
    intros s m s' m'; simpl.
  - intros (-> & _). now exists "".
  - intros (-> & _). now exists "".
  - intros (-> & _). now exists text.
  - intros (_ & a & -> & _). now exists a.
  - intros (s1 & m1 & H1 & H2).
    destruct (IH1 _ _ _ _ H1) as (a1 & ->).
    destruct (IH2 _ _ _ _ H2) as (a2 & ->).
    exists (a1 ++ a2). now rewrite app_assoc.
  - intros [H|(-> & _)]; [now apply (IH _ _ _ _ H) | now exists ""].
  - intros (m1 & H & _). now apply (IH _ _ _ _ H).
Qed.

Lemma tight_end_suffix a b : tight_end (a ++ b) -> tight_end b.
Proof.
  intros [E|(b' & c & E & Hc)].
  - left. destruct a; [exact E | discriminate E].
  - destruct b as [|y b]; [now left|]. right.
    destruct (suffix_ends a (String y b) b' c E) as (b'' & Eb); [discriminate|].
    now exists b'', c.
Qed.

Lemma tight_end_not_space s :
  tight_end s -> all is_space s = true -> s = "".
Proof.
  intros [E|(b & c & -> & Hc)] H; [exact E|].
  apply all_last in H. congruence.
Qed.

(** On a text of one line that is not empty, a description with the rest
    of the pattern can be matched. *)
Lemma desc_tail_some n b m :
  b <> "" -> all is_dot b = true ->
  exec n (PR_DESC +> PR_TAIL) b m (fun _ m' => Some m') <> None.
Proof.
  intros Hne Hdot H.
  assert (Hm : matches n (PR_DESC +> PR_TAIL) b m "" (("desc", b) :: m)).
  { unfold PR_DESC, PR_TAIL, PR_END. cbn [matches plus_lazy star].
    exists "", (("desc", b) :: m). split.
    - exists m. split.
      + split; [reflexivity|]. exists b. rewrite app_empty_r.
        repeat split; auto. destruct b; [congruence | simpl; lia].
      + assert (E : taken b "" = b)
          by (rewrite <- (app_empty_r b) at 1; apply taken_app).
        now rewrite E.
    - exists "", (("desc", b) :: m). split; [now right|].
      exists "", (("desc", b) :: m). split; [now right|].
      exists "", (("desc", b) :: m). split.
      + split; [reflexivity|]. exists "". repeat split; auto.
      + repeat split; reflexivity. }
  discriminate (exec_complete n _ _ _ _ _ _ Hm H).
Qed.

(** The description of a match starts where the match is tried. *)
Lemma desc_tail_head n b m x :
  exec n (PR_DESC +> PR_TAIL) b m (fun _ m' => Some m') = Some x ->
  exists d s3, b = d ++ s3 /\ d <> "" /\ x = ("desc", d) :: m.
Proof.
  intros H. apply exec_sound in H as (s' & m' & Hm & [= ->]).
  cbn [matches] in Hm. destruct Hm as (s1 & m1 & Hd & Htl).
  apply tail_cut in Htl as (-> & _).
  unfold PR_DESC, plus_lazy in Hd. cbn [matches] in Hd.
  destruct Hd as (m2 & (-> & d & -> & _ & Ld) & ->).
  exists d, s1. rewrite taken_app. repeat split; auto.
  intros ->. simpl in Ld. lia.
Qed.

(** After a run of white space on a trimmed line, the description starts
    with a character that is not white space. *)
Lemma after_space_run n lo s m x :
  all is_dot s = true -> tight_end s ->
  rep_greedy is_space lo s
    (fun s' => exec n (PR_DESC +> PR_TAIL) s' m (fun _ m' => Some m')) = Some x ->
  exists d c a post,
    x = ("desc", d) :: m /\ d = String c a /\ is_space c = false
    /\ exists pre, s = pre ++ d ++ post.
Proof.
  intros Hdot Ht H.
  destruct (greedy_first _ _ _ _ _ H) as (w & b & -> & Hw & Hb & Hlo & Hk).
  rewrite all_app in Hdot. apply andb_true_iff in Hdot as [_ Hdotb].
  destruct Hk as [Hk|Hk].
  - destruct (desc_tail_head n b m x Hk) as (d & s3 & -> & Hd & ->).
    destruct d as [|c a]; [congruence|].
    exists (String c a), c, a, s3. repeat split; auto.
    + simpl in Hb. now apply negb_true_iff in Hb.
    + now exists w.
  - exfalso. destruct b as [|y b].
    + rewrite app_empty_r in *.
      rewrite (tight_end_not_space w Ht Hw) in H. simpl in H.
      now destruct (Nat.eqb lo 0).
    + now apply (desc_tail_some n (String y b) m).
Qed.

(** On a trimmed line of one line, the description that [PR_RE] captures
    starts with a character that is not white space, and is a part of the
    line. *)
Lemma pr_desc_head s m :
  all is_dot s = true -> tight_end s -> re_match PR_RE s = Some m ->
  exists d c a,
    group m "desc" = Some d /\ d = String c a /\ is_space c = false
    /\ exists pre post, s = pre ++ d ++ post.
Proof.
  intros Hdot Ht H. unfold re_match in H. set (n := String.length s) in H.
  unfold PR_RE, PR_BULLET in H. rewrite !run_assoc in H.
  apply seq_sound in H as (s1 & m1 & (-> & -> & _) & H).
  rewrite run_assoc in H.
  apply seq_sound in H as (s2 & m2 & (-> & ->) & H).
  assert (Hdot2 : all is_dot s2 = true) by exact Hdot.
  assert (Ht2 : tight_end s2) by exact (tight_end_suffix "*" s2 Ht).
  clearbody n. clear Hdot Ht.
  destruct (greedy_first is_space 1 s2
              (fun s' => exec n (Opt PR_TYPE +> PR_DESC +> PR_TAIL) s' []
                           (fun _ m' => Some m')) m H)
    as (w & b & -> & Hw & Hb & Hlo & Hk).
  rewrite all_app in Hdot2. apply andb_true_iff in Hdot2 as [_ Hdotb].
  apply tight_end_suffix in Ht2 as Htb.
  assert (Hne : b <> "").
  { intros ->. rewrite app_empty_r in Ht2.
    rewrite (tight_end_not_space w Ht2 Hw) in Hlo. simpl in Hlo. lia. }
  destruct Hk as [Hk|Hk].
  - apply opt_cases in Hk as [Hty|[_ Hk]].
    + unfold PR_TYPE in Hty. rewrite run_assoc in Hty.
      apply seq_sound in Hty as (s3 & m3 & H3 & Hty). rewrite run_assoc in Hty.
      apply seq_sound in Hty as (s4 & m4 & H4 & Hty). rewrite run_assoc in Hty.
      apply seq_sound in Hty as (s5 & m5 & H5 & Hty).
      destruct (matches_cut _ _ _ _ _ _ H3) as (a3 & ->).
      destruct (matches_cut _ _ _ _ _ _ H4) as (a4 & ->).
      destruct (matches_cut _ _ _ _ _ _ H5) as (a5 & ->).
      assert (Hdot5 : all is_dot s5 = true).
      { rewrite !all_app in Hdotb.
        repeat (apply andb_true_iff in Hdotb as [_ Hdotb]). exact Hdotb. }
      assert (Ht5 : tight_end s5)
        by (repeat apply tight_end_suffix in Htb; exact Htb).
      destruct (after_space_run n 0 s5 m5 m Hdot5 Ht5 Hty)
        as (d & c & a & post & -> & -> & Hc & pre & ->).
      exists (String c a), c, a. repeat split; auto.
      exists ("*" ++ w ++ a3 ++ a4 ++ a5 ++ pre), post. str_eq.
    + destruct (desc_tail_head n b [] m Hk) as (d & s3 & -> & Hd & ->).
      destruct d as [|c a]; [congruence|].
      exists (String c a), c, a. repeat split; auto.
      * simpl in Hb. now apply negb_true_iff in Hb.
      * exists ("*" ++ w), s3. str_eq.
  - exfalso. apply opt_none in Hk. now apply (desc_tail_some n b []).
Qed.

End DescFacts.

(* ================================================================= *)
(** ** Properties of the parser beyond single lines *)

Module NotesFacts.
Import Layout DictFacts Process LoopFacts AccountFacts DescFacts.

(** Every line that [splitlines] gives is free of line boundaries. *)
Lemma splitlines_lines s :
  Forall (fun l => one_line l = true) (splitlines s).
Proof.
  assert (H : Forall (fun l => one_line l = true) (splitlines s)
              /\ match s with
                 | "" => True
                 | String _ s' => Forall (fun l => one_line l = true) (splitlines s')
                 end).
  { induction s as [|c s [IH1 IH2]]; [split; constructor|].
    split; [|exact IH1]. cbn [splitlines].
    destruct (is_linebreak c) eqn:Hc.
    - constructor; [reflexivity|].
      destruct (Ascii.eqb c Chars.CR); [|exact IH1].
      destruct s as [|c' s'']; [constructor|].
      destruct (Ascii.eqb c' Chars.LF); [exact IH2 | exact IH1].
    - destruct (splitlines s) as [|l ls]; constructor.
      + unfold one_line. simpl. now rewrite Hc.
      + constructor.
      + inversion IH1; subst. unfold one_line in *. simpl. now rewrite Hc.
      + now inversion IH1. }
  exact (proj1 H).
Qed.

Lemma one_line_strip s : one_line s = true -> one_line (strip s) = true.
Proof.
  intros H. unfold strip.
  destruct (lstrip_parts s) as (l & E1 & _).
  destruct (rstrip_parts (lstrip s)) as (r & E2 & _).
  rewrite E1, E2, !one_line_app in H.
  apply andb_true_iff in H as [_ H]. now apply andb_true_iff in H as [H _].
Qed.

Lemma tight_end_strip s : tight_end (strip s).
Proof.
  unfold strip. destruct (rstrip_parts (lstrip s)) as (r & _ & _ & [E|H]).
  - now left.
  - now right.
Qed.

Lemma strip_idem s : strip (strip s) = strip s.
Proof.
  destruct (string_dec (strip s) "") as [E|Hne]; [now rewrite E|].
  destruct (strip_parts s Hne) as (l & r & _ & _ & _ & (x & a & E1 & Hx)
                                   & (b & c & E2 & Hc)).
  rewrite E1. apply strip_fixed with (b := b) (c := c); auto.
  now rewrite <- E1.
Qed.

Lemma strip_head_nonspace c a :
  is_space c = false -> strip (String c a) <> "".
Proof.
  intros Hc. unfold strip. rewrite (lstrip_nonspace c a Hc).
  now rewrite (rstrip_cons_nonspace c a Hc).
Qed.

Lemma heading_of_known ty : In (heading_of ty) HEADINGS.
Proof.
  unfold heading_of, HEADINGS.
  repeat match goal with
         | |- context [String.eqb ty ?k] => destruct (String.eqb ty k)
         end; simpl; tauto.
Qed.

(** The entry of a line of one line is a good entry under a known
    heading. *)
Lemma line_entry_good l p :
  one_line l = true -> line_entry l = Some p ->
  In (fst p) HEADINGS /\ good_entry (snd p).
Proof.
  intros Hl. unfold line_entry.
  destruct (re_match CHANGELOG_RE (strip l)); [discriminate|].
  destruct (re_match PR_RE (strip l)) as [m|] eqn:Hp; [|discriminate].
  assert (Hdot : all is_dot (strip l) = true)
    by now apply one_line_dot, one_line_strip.
  destruct (pr_desc_head (strip l) m Hdot (tight_end_strip l) Hp)
    as (d & c & a & -> & -> & Hc & pre & post & E).
  destruct (in_set (or_empty (group m "type")) SKIP_TYPES); [discriminate|].
  intros [= <-]. cbn [fst snd]. split.
  - rewrite heading_of_table. apply heading_of_known.
  - repeat split.
    + now apply strip_head_nonspace.
    + apply strip_idem.
    + apply one_line_strip. apply one_line_strip in Hl.
      rewrite E, !one_line_app in Hl.
      apply andb_true_iff in Hl as [_ Hl]. now apply andb_true_iff in Hl as [Hl _].
Qed.

Lemma stored_good lines :
  Forall (fun l => one_line l = true) lines ->
  Forall (fun p => In (fst p) HEADINGS /\ good_entry (snd p)) (stored lines).
Proof.
  induction 1 as [|l ls Hl _ IH]; [constructor|].
  unfold stored. cbn [flat_map]. fold (stored ls).
  destruct (line_entry l) as [p|] eqn:E; [|exact IH].
  constructor; [now apply line_entry_good with (l := l) | exact IH].
Qed.

(** What holds of every key with its list before, and is kept by an
    append of any of the entries, holds after all of them. *)
Lemma forall_add_all (P : string * list string -> Prop)
    (Q : string * string -> Prop) ps :
  (forall k x old, Q (k, x) -> old = [] \/ P (k, old) -> P (k, (old ++ [x])%list)) ->
  Forall Q ps -> forall secs, Forall P secs -> Forall P (add_all secs ps).
Proof.
  intros Hstep. induction 1 as [|[k x] ps Hp _ IH]; intros secs Hs; [exact Hs|].
  change (add_all secs ((k, x) :: ps))
    with (add_all (setdefault_append secs k x) ps).
  apply IH. apply forall_setdefault_append; [|exact Hs].
  intros old Hold. now apply Hstep.
Qed.

Lemma nodup_add_all ps : forall secs,
  NoDup (map fst secs) -> NoDup (map fst (add_all secs ps)).
Proof.
  induction ps as [|[k x] ps IH]; intros secs H; [exact H|].
  change (add_all secs ((k, x) :: ps))
    with (add_all (setdefault_append secs k x) ps).
  apply IH. now apply nodup_setdefault_append.
Qed.

(** The result of [parse_notes], by the entries of the lines. *)
Lemma parse_notes_stored raw :
  exists url,
    parse_notes raw = Ok (add_all [] (stored (splitlines raw)), url).
Proof. exact (parse_lines_stored (splitlines raw) [] None). Qed.

Lemma last_line_in (lines : list string) l :
  last_line lines = Some l -> In l lines.
Proof.
  induction lines as [|x xs IH]; [discriminate|].
  destruct xs as [|y ys].
  - intros [= ->]. now left.
  - intros H. right. apply IH. exact H.
Qed.

(** The URL of a match of [CHANGELOG_RE]. *)
Lemma changelog_match_http s m :
  re_match CHANGELOG_RE s = Some m ->
  exists secure rest,
    m = [("url", http_url secure rest)]
    /\ all is_nonspace rest = true /\ rest <> "".
Proof.
  intros H. apply re_match_sound in H as (s' & H).
  unfold CHANGELOG_RE in H. cbn [matches] in H.
  destruct H as (s1 & m1 & (-> & -> & _) & s2 & m2 & (-> & ->)
                 & s3 & m3 & (-> & a & -> & _) & m4 & Hu & ->).
  destruct Hu as (s4 & m5 & (-> & ->) & s5 & m6 & Ho & s6 & m7 & (-> & ->) & Hp).
  unfold plus in Hp. cbn [matches] in Hp. destruct Hp as (-> & b & -> & Hb & Lb).
  assert (exists secure : bool,
            s4 = (if secure then "s" else "") ++ "://" ++ b ++ s'
                         /\ m6 = []) as (secure & -> & ->).
  { destruct Ho as [[-> ->]|[-> ->]]; [now exists true | now exists false]. }
  exists secure, b. repeat split; auto.
  - unfold http_url.
    replace ("http" ++ (if secure then "s" else "") ++ "://" ++ b ++ s')
      with (("http" ++ (if secure then "s" else "") ++ "://" ++ b) ++ s')
      by str_eq.
    now rewrite taken_app.
  - intros ->. simpl in Lb. lia.
Qed.

End NotesFacts.

(** X1.  Every entry that [parse_notes] stores is a good entry: it is not
    the empty string, it is trimmed, and it has no line boundary. *)
Theorem stored_entries_good :
  forall raw : string,
    exists (secs : sections) (url : option string),
      parse_notes raw = Ok (secs, url)
      /\ Forall (fun q => Forall good_entry (snd q)) secs.
Proof.
  intros raw. destruct (NotesFacts.parse_notes_stored raw) as (url & H).
  exists (add_all [] (stored (splitlines raw))), url. split; [exact H|].
  apply NotesFacts.forall_add_all
    with (Q := fun p => In (fst p) Layout.HEADINGS /\ good_entry (snd p));
    [| apply NotesFacts.stored_good, NotesFacts.splitlines_lines | constructor].
  intros k x old [_ Hx] [->|Hold]; cbn [snd] in *.
  - constructor; [exact Hx | constructor].
  - apply Forall_app. split; [exact Hold|]. constructor; [exact Hx | constructor].
Qed.

(** X2.  The sections that [parse_notes] returns have distinct keys, each
    key is one of the eight headings, and no key has an empty list. *)
Theorem sections_well_formed :
  forall raw : string,
    exists (secs : sections) (url : option string),
      parse_notes raw = Ok (secs, url)
      /\ NoDup (map fst secs)
      /\ Forall (fun q => In (fst q) Layout.HEADINGS /\ snd q <> []) secs.
Proof.
  intros raw. destruct (NotesFacts.parse_notes_stored raw) as (url & H).
  exists (add_all [] (stored (splitlines raw))), url. split; [exact H|].
  split; [apply NotesFacts.nodup_add_all; constructor|].
  apply NotesFacts.forall_add_all
    with (Q := fun p => In (fst p) Layout.HEADINGS /\ good_entry (snd p));
    [| apply NotesFacts.stored_good, NotesFacts.splitlines_lines | constructor].
  intros k x old [Hk _] _; cbn [fst snd] in *.
  split; [exact Hk | now destruct old].
Qed.

(** X3.  Under every heading the sections hold exactly the entries of the
    lines that go to this heading, in the order of the lines; nothing is
    merged, dropped or moved. *)
Theorem entries_in_line_order :
  forall raw : string,
    exists (secs : sections) (url : option string),
      parse_notes raw = Ok (secs, url)
      /\ forall heading : string,
           Layout.entries secs heading
           = under heading (stored (splitlines raw)).
Proof.
  intros raw. destruct (NotesFacts.parse_notes_stored raw) as (url & H).
  exists (add_all [] (stored (splitlines raw))), url. split; [exact H|].
  intros heading. now rewrite AccountFacts.entries_add_all.
Qed.

(** X5.  No text is matched by both patterns: a changelog line is never a
    pull-request line. *)
Theorem patterns_disjoint :
  forall s : string,
    re_match CHANGELOG_RE s = None \/ re_match PR_RE s = None.
Proof.
  intros s.
  destruct (re_match CHANGELOG_RE s) as [m|] eqn:Hc; [right | now left].
  destruct (re_match PR_RE s) as [m'|] eqn:Hp; [exfalso | reflexivity].
  apply PrLine.changelog_prefix in Hc as (s' & ->).
  apply BulletFacts.pr_match_bullet in Hp. discriminate Hp.
Qed.

(** X10.  The URL that [parse_notes] returns, if any, is [http://] or
    [https://] followed by at least one character, without white space. *)
Theorem changelog_url_well_formed :
  forall raw : string,
    exists secs : sections,
      parse_notes raw = Ok (secs, None)
      \/ exists (secure : bool) (rest : string),
           parse_notes raw = Ok (secs, Some (http_url secure rest))
           /\ all is_nonspace rest = true /\ rest <> "".
Proof.
  intros raw.
  destruct (LoopFacts.parse_lines_changelog (splitlines raw) [] None)
    as (secs & H & _).
  exists secs. fold (parse_notes raw) in H.
  destruct (last_line (filter is_changelog (splitlines raw))) as [l|] eqn:El;
    [right | now left].
  apply NotesFacts.last_line_in, filter_In in El as [_ Hl].
  unfold is_changelog in Hl. unfold captured_url in H.
  destruct (re_match CHANGELOG_RE (strip l)) as [m|] eqn:Hm; [|discriminate].
  destruct (NotesFacts.changelog_match_http _ _ Hm) as (secure & rest & -> & Hr & Hne).
  now exists secure, rest.
Qed.

(* ================================================================= *)
(** ** From the lines of the notes to the lines of the output *)

Module OutputFacts.
Import Layout Render DictFacts AccountFacts NotesFacts.

Lemma filter_flat_map {V W : Type} (p : W -> bool) (f : V -> list W) xs :
  filter p (flat_map f xs) = flat_map (fun x => filter p (f x)) xs.
Proof.
  induction xs as [|x xs IH]; [reflexivity|].
  cbn [flat_map]. now rewrite List.filter_app, IH.
Qed.

Lemma flat_map_nil {V W : Type} (f : V -> list W) xs :
  (forall x, f x = []) -> flat_map f xs = [].
Proof.
  intros H. induction xs as [|x xs IH]; [reflexivity|].
  cbn [flat_map]. now rewrite H, IH.
Qed.

Lemma md_items_kept es :
  filter (startswith "- ") (map md_item es) = map md_item es.
Proof. induction es as [|e es IH]; [reflexivity|]. simpl. now rewrite IH. Qed.

Lemma html_items_kept es :
  filter (startswith "  <li>") (map html_item es) = map html_item es.
Proof. induction es as [|e es IH]; [reflexivity|]. simpl. now rewrite IH. Qed.

Lemma md_block_items secs h :
  filter (startswith "- ") (md_block secs h) = map md_item (entries secs h).
Proof.
  unfold md_block, populated, entries.
  destruct (get secs h) as [[|e es]|]; try reflexivity.
  cbn [truthy_list]. rewrite !List.filter_app, md_items_kept.
  now rewrite List.app_nil_r.
Qed.

Lemma html_block_items secs h :
  filter (startswith "  <li>") (html_block secs h)
  = map html_item (entries secs h).
Proof.
  unfold html_block, populated, entries.
  destruct (get secs h) as [[|e es]|]; try reflexivity.
  cbn [truthy_list]. rewrite !List.filter_app, html_items_kept.
  now rewrite List.app_nil_r.
Qed.

Lemma md_changelog_no_item url :
  filter (startswith "- ") (md_changelog url) = [].
Proof. now destruct url as [[|c u]|]. Qed.

(** The item lines of both outputs, by the entries under the headings. *)
Lemma markdown_items tag secs url :
  filter (startswith "- ") (markdown_lines tag secs url)
  = flat_map (fun h => map md_item (entries secs h)) HEADINGS.
Proof.
  rewrite markdown_lines_layout. unfold md_lines.
  rewrite !List.filter_app, md_changelog_no_item, List.app_nil_r, filter_flat_map.
  cbn [filter app]. apply flat_map_ext. intros h. apply md_block_items.
Qed.

Lemma html_items tag secs url :
  filter (startswith "  <li>") (html_parts tag secs url)
  = flat_map (fun h => map html_item (entries secs h)) HEADINGS.
Proof.
  rewrite html_parts_layout. unfold html_lines. rewrite filter_flat_map.
  apply flat_map_ext. intros h. apply html_block_items.
Qed.

Lemma length_flat_map_map {V W : Type} (g : V -> W) (f : string -> list V) hs :
  List.length (flat_map (fun h => map g (f h)) hs)
  = List.length (flat_map f hs).
Proof.
  induction hs as [|h hs IH]; [reflexivity|].
  cbn [flat_map]. now rewrite !List.length_app, List.length_map, IH.
Qed.

(** Every entry goes under exactly one of the eight headings. *)
Lemma length_under_headings ps :
  Forall (fun p => In (fst p) HEADINGS) ps ->
  List.length (flat_map (fun h => under h ps) HEADINGS) = List.length ps.
Proof.
  induction 1 as [|[k e] ps Hk _ IH]; [reflexivity|].
  unfold HEADINGS in *. cbn [flat_map] in *.
  rewrite !List.length_app in *. cbn [fst List.length] in *.
  unfold under in *. cbn [filter fst] in *.
  destruct Hk as [<-|[<-|[<-|[<-|[<-|[<-|[<-|[<-|[]]]]]]]]];
    cbn [String.eqb Ascii.eqb Bool.eqb map snd List.length]; lia.
Qed.

Lemma entries_populated secs h :
  populated secs h = negb (match entries secs h with [] => true | _ => false end).
Proof. unfold populated, entries. now destruct (get secs h) as [[|e es]|]. Qed.

(** The first line of the HTML output when a heading is populated. *)
Lemma html_lines_head secs h0 hs :
  In h0 hs -> populated secs h0 = true ->
  exists y tl, flat_map (html_block secs) hs = ("<h2>" ++ y) :: tl.
Proof.
  intros Hin Hp. induction hs as [|h hs IH]; [destruct Hin|].
  cbn [flat_map]. unfold html_block at 1.
  destruct (populated secs h) eqn:Eh.
  - do 2 eexists. unfold html_heading. cbn [app]. reflexivity.
  - destruct Hin as [->|Hin]; [congruence|]. now apply IH.
Qed.

Lemma join_head_h2 y tl :
  startswith "<h2>" (join Str.LF (("<h2>" ++ y) :: tl)) = true.
Proof. unfold join. destruct tl; reflexivity. Qed.

(** [rstrip] and [strip] do not see white space added around. *)
Lemma rstrip_app_space x r : all is_space r = true -> rstrip (x ++ r) = rstrip x.
Proof.
  intros Hr. induction x as [|c x IH]; simpl.
  - now apply rstrip_all_space.
  - now rewrite IH.
Qed.

Lemma strip_padded l s r :
  all is_space l = true -> all is_space r = true ->
  strip (l ++ s ++ r) = strip s.
Proof.
  intros Hl Hr. unfold strip. rewrite (lstrip_all_space l _ Hl).
  induction s as [|c s IH].
  - simpl. rewrite <- (app_empty_r r), (lstrip_all_space r "" Hr). reflexivity.
  - simpl. destruct (is_space c); [exact IH|].
    exact (rstrip_app_space (String c s) r Hr).
Qed.

End OutputFacts.

(** X4.  Every entry that the parser stores is rendered once: the item
    lines of the plain output, and those of the HTML output, are the
    entries of the lines of the notes, heading by heading in the fixed
    order and in the order of the lines under each heading; there are as
    many of them as lines that give an entry. *)
Theorem every_entry_rendered_once :
  forall (raw tag : string),
    exists (secs : sections) (url : option string),
      parse_notes raw = Ok (secs, url)
      /\ filter (startswith "- ") (markdown_lines tag secs url)
         = flat_map (fun h => map Layout.md_item (under h (stored (splitlines raw))))
             Layout.HEADINGS
      /\ filter (startswith "  <li>") (html_parts tag secs url)
         = flat_map (fun h => map Layout.html_item (under h (stored (splitlines raw))))
             Layout.HEADINGS
      /\ List.length (filter (startswith "- ") (markdown_lines tag secs url))
         = List.length (stored (splitlines raw))
      /\ List.length (filter (startswith "  <li>") (html_parts tag secs url))
         = List.length (stored (splitlines raw)).
Proof.
  intros raw tag. destruct (NotesFacts.parse_notes_stored raw) as (url & H).
  exists (add_all [] (stored (splitlines raw))), url. split; [exact H|].
  assert (Hmd : filter (startswith "- ")
                  (markdown_lines tag (add_all [] (stored (splitlines raw))) url)
                = flat_map (fun h => map Layout.md_item
                                       (under h (stored (splitlines raw))))
                    Layout.HEADINGS).
  { rewrite OutputFacts.markdown_items. apply flat_map_ext. intros h.
    now rewrite AccountFacts.entries_add_all. }
  assert (Hhtml : filter (startswith "  <li>")
                    (html_parts tag (add_all [] (stored (splitlines raw))) url)
                  = flat_map (fun h => map Layout.html_item
                                         (under h (stored (splitlines raw))))
                      Layout.HEADINGS).
  { rewrite OutputFacts.html_items. apply flat_map_ext. intros h.
    now rewrite AccountFacts.entries_add_all. }
  assert (Hlen : List.length (flat_map (fun h => under h (stored (splitlines raw)))
                                Layout.HEADINGS)
                 = List.length (stored (splitlines raw))).
  { apply OutputFacts.length_under_headings.
    eapply Forall_impl; [|apply NotesFacts.stored_good, NotesFacts.splitlines_lines].
    intros p [Hp _]. exact Hp. }
  repeat split; auto.
  - now rewrite Hmd, OutputFacts.length_flat_map_map.
  - now rewrite Hhtml, OutputFacts.length_flat_map_map.
Qed.

(** X8.  When no line of the notes gives an entry, the HTML output is
    empty and the plain output is the title, a blank line and the
    changelog lines; as soon as one line gives an entry, the HTML output
    starts with a heading. *)
Theorem empty_notes_output :
  forall (raw tag : string),
    exists (secs : sections) (url : option string),
      parse_notes raw = Ok (secs, url)
      /\ ((stored (splitlines raw) = []
           /\ format_html tag secs url = ""
           /\ markdown_lines tag secs url
              = ([Layout.md_title tag; ""] ++ Layout.md_changelog url)%list)
          \/ (stored (splitlines raw) <> []
              /\ startswith "<h2>" (format_html tag secs url) = true)).
Proof.
  intros raw tag. destruct (NotesFacts.parse_notes_stored raw) as (url & H).
  exists (add_all [] (stored (splitlines raw))), url. split; [exact H|].
  destruct (stored (splitlines raw)) as [|p ps] eqn:Es; [left | right].
  - split; [reflexivity|]. split; [reflexivity|].
    now rewrite Render.markdown_lines_layout.
  - split; [discriminate|]. unfold format_html.
    rewrite Render.html_parts_layout. unfold Layout.html_lines.
    assert (Hin : In (fst p) Layout.HEADINGS).
    { pose proof (NotesFacts.stored_good _ (NotesFacts.splitlines_lines raw)) as Hg.
      rewrite Es in Hg. inversion Hg as [|? ? [Hp _] _]. exact Hp. }
    assert (Hpop : Layout.populated (add_all [] (p :: ps)) (fst p) = true).
    { rewrite OutputFacts.entries_populated, AccountFacts.entries_add_all.
      unfold under. cbn [filter]. rewrite String.eqb_refl. reflexivity. }
    destruct (OutputFacts.html_lines_head _ _ _ Hin Hpop) as (y & tl & ->).
    apply OutputFacts.join_head_h2.
Qed.

(** X6.  White space around a line plays no role: one turn of the loop
    gives the same on a line and on the line between two runs of white
    space. *)
Theorem process_line_padding :
  forall (st : notes) (l line r : string),
    all is_space l = true -> all is_space r = true ->
    process_line st (l ++ line ++ r) = process_line st line.
Proof.
  intros [secs url] l line r Hl Hr. unfold process_line.
  now rewrite (OutputFacts.strip_padded l line r Hl Hr).
Qed.

Lemma process_line_padding_witness :
  process_line ([], None) ("    " ++ "* fix: crash on launch" ++ "  ")
  = process_line ([], None) "* fix: crash on launch".
Proof.
  exact (process_line_padding ([], None) "    " "* fix: crash on launch" "  "
           eq_refl eq_refl).
Defined.

(** X9.  In HTML mode the tag plays no role: the run gives the same for
    any two tags, and the same when the tag is left out, [--html] then
    standing in its place. *)
Theorem main_html_ignores_tag :
  forall (prog file tag tag' : string) (before after : list string)
         (read_text : string -> py string),
    main (prog :: file :: tag :: before ++ "--html" :: after)%list read_text
    = main (prog :: file :: tag' :: before ++ "--html" :: after)%list read_text
    /\ main [prog; file; "--html"] read_text
       = main [prog; file; tag; "--html"] read_text.
Proof.
  intros prog file tag tag' before after read_text.
  assert (Hin : forall t, in_set "--html"
                  (prog :: file :: t :: before ++ "--html" :: after)%list = true).
  { intros t. apply DictFacts.in_set_In. right. right. right.
    apply in_or_app. right. now left. }
  unfold main. cbn [List.length Nat.ltb Nat.leb nth]. rewrite !Hin.
  split.
  - destruct (read_text file) as [raw|e]; [|reflexivity]. cbn [bind].
    destruct (parse_notes raw) as [[secs url]|e]; [|reflexivity]. cbn [bind].
    unfold format_html. now rewrite !Render.html_parts_layout.
  - assert (H1 : in_set "--html" [prog; file; "--html"] = true)
      by (apply DictFacts.in_set_In; simpl; tauto).
    assert (H2 : in_set "--html" [prog; file; tag; "--html"] = true)
      by (apply DictFacts.in_set_In; simpl; tauto).
    rewrite H1, H2.
    destruct (read_text file) as [raw|e]; [|reflexivity]. cbn [bind].
    destruct (parse_notes raw) as [[secs url]|e]; [|reflexivity]. cbn [bind].
    unfold format_html. now rewrite !Render.html_parts_layout.
Qed.

(* ================================================================= *)
(** ** A pull-request line with a scope *)

Module ScopeFacts.
Import Run PatternFacts PrLine Process.

(** The groups of [* <type>(<scope>): <desc> by @<user> in <url>]: the
    scope is taken and left out. *)
Lemma pr_line_groups_scoped t scope l d r0 u o r :
  all is_lower t = true -> t <> "" -> scope_ok scope = true ->
  all is_space l = true -> all is_space r0 = true ->
  (exists x a, d = String x a /\ is_space x = false) ->
  (exists b c, d = b ++ String c "" /\ is_space c = false) ->
  all is_dot d = true ->
  all is_name u = true -> u <> "" -> (o = "s" \/ o = "") ->
  all is_nonspace r = true -> r <> "" ->
  re_match PR_RE
    ("* " ++ t ++ scope_text scope ++ ": " ++ l ++ d ++ r0
       ++ " by @" ++ u ++ " in http" ++ o ++ "://" ++ r)
  = Some [("desc", d); ("type", t)].
Proof.
  intros Ht Htne Hsc Hl Hr0 (x & a & Hd1 & Hx) (b & c & Hd2 & Hc) Hdot
    Hu Hune Ho Hr Hrne.
  set (suffix := " by @" ++ u ++ " in http" ++ o ++ "://" ++ r).
  set (body := ": " ++ l ++ d ++ r0 ++ suffix).
  unfold re_match. set (n := String.length _).
  unfold PR_RE, PR_BULLET. rewrite !run_assoc.
  rewrite run_bol by reflexivity.
  rewrite run_assoc,
    (run_lit n "*" _ _ (" " ++ t ++ scope_text scope ++ body)) by reflexivity.
  apply run_plus with (a := " ") (b := t ++ scope_text scope ++ body);
    [reflexivity | reflexivity | discriminate | |].
  { destruct t as [|y t]; [congruence|]. simpl in Ht |- *.
    apply andb_true_iff in Ht as [Hy _]. now rewrite (lower_not_space _ Hy). }
  apply run_opt_take. unfold PR_TYPE. rewrite run_assoc.
  apply run_group_plus with (a := t) (b := scope_text scope ++ body);
    [reflexivity | exact Ht | exact Htne | now destruct scope |].
  rewrite run_assoc.
  assert (Hbody : exec n ((Lit ":" +> star is_space) +> PR_DESC +> PR_TAIL) body
                    [("type", t)] (fun _ m => Some m)
                  = Some [("desc", d); ("type", t)]).
  { rewrite run_assoc,
      (run_lit n ":" _ _ (" " ++ l ++ d ++ r0 ++ suffix)) by reflexivity.
    apply run_star with (a := " " ++ l) (b := d ++ r0 ++ suffix);
      [str_eq | exact Hl | rewrite Hd1; simpl; now rewrite Hx |].
    unfold PR_DESC.
    apply run_group_lazy with (a := d) (b := r0 ++ suffix);
      [reflexivity | exact Hdot | rewrite Hd1; discriminate | |].
    - now apply tail_by_in.
    - intros a1 a2 E Hne. apply exec_none. intros s' m' Hm.
      apply tail_cut in Hm as (_ & Hw & _). exfalso.
      rewrite Hd2 in E. symmetry in E.
      destruct (suffix_ends _ _ _ _ E Hne) as (b' & ->).
      replace ((b' ++ String c "") ++ r0 ++ suffix)
        with ((b' ++ String c r0) ++ suffix) in Hw by str_eq.
      rewrite nwords_app_space in Hw by reflexivity.
      unfold suffix in Hw. rewrite suffix_words in Hw by assumption.
      pose proof (nwords_positive b' c r0 Hc). lia. }
  destruct scope as [sc|].
  - simpl in Hsc. apply andb_true_iff in Hsc as [Hsc _].
    apply run_opt_take. unfold PR_SCOPE. rewrite run_assoc.
    rewrite (run_lit n "(" _ _ (sc ++ ")" ++ body)) by str_eq.
    rewrite run_assoc.
    apply run_star with (a := sc) (b := ")" ++ body);
      [reflexivity | exact Hsc | reflexivity |].
    rewrite (run_lit n ")" _ _ body) by reflexivity. exact Hbody.
  - rewrite run_opt_skip; [exact Hbody|].
    intros s' m' (s1 & m1 & (E & _) & _). discriminate E.
Qed.

End ScopeFacts.

(** X7.  The scope of a type prefix is left out and changes nothing: the
    line [* t(scope): d by @u in <url>], for a scope of one line without
    closing parenthesis and under the conditions of C1 on the other
    parts, stores the entry [d] trimmed under the heading of [t], or
    nothing when [t] is one of build, ci and chore. *)
Theorem scope_changes_nothing :
  forall (t : string) (scope : option string) (d u : string)
         (secure : bool) (rest : string),
    all is_lower t = true -> t <> "" -> scope_ok scope = true ->
    one_line d = true -> strip d <> "" ->
    all is_name u = true -> u <> "" ->
    all is_nonspace rest = true -> rest <> "" ->
    let line := pr_line_scoped t scope d u (http_url secure rest) in
    re_match PR_RE line = Some [("desc", strip d); ("type", t)]
    /\ parse_notes line
       = Ok (if in_set t ["build"; "ci"; "chore"] then []
             else [(heading_of t, [strip d])],
             None).
Proof.
  intros t scope d u secure rest Ht Htne Hsc Hd Hdne Hu Hune Hr Hrne line.
  destruct (strip_parts d Hdne) as (l & r0 & Ed & Hl & Hr0 & Hfirst & Hlast).
  assert (Hd' : one_line (strip d) = true) by now apply NotesFacts.one_line_strip.
  assert (Hshape : line = "* " ++ t ++ scope_text scope ++ ": " ++ l ++ strip d
                            ++ r0 ++ " by @" ++ u ++ " in http"
                            ++ (if secure then "s" else "") ++ "://" ++ rest).
  { unfold line, pr_line_scoped, http_url. rewrite Ed at 1. str_eq. }
  assert (Hm : re_match PR_RE line = Some [("desc", strip d); ("type", t)]).
  { rewrite Hshape. apply ScopeFacts.pr_line_groups_scoped; auto.
    - now apply one_line_dot.
    - destruct secure; auto. }
  split; [exact Hm|].
  destruct (PrLine.last_char rest Hrne) as (b & c & Er).
  assert (Hc : is_space c = false).
  { apply nonspace_iff. apply (PrLine.all_last is_nonspace b). now rewrite <- Er. }
  assert (Hline : strip line = line).
  { unfold line, pr_line_scoped, http_url. rewrite Er.
    apply strip_fixed with
      (b := "* " ++ t ++ scope_text scope ++ ": " ++ d ++ " by @" ++ u
              ++ " in http" ++ (if secure then "s" else "") ++ "://" ++ b)
      (c := c);
      [reflexivity | exact Hc | str_eq]. }
  assert (Hscope : one_line (scope_text scope) = true).
  { destruct scope as [sc|]; [|reflexivity]. simpl in Hsc.
    apply andb_true_iff in Hsc as [_ Hsc].
    unfold scope_text. rewrite !one_line_app, Hsc. reflexivity. }
  assert (Hone : one_line line = true).
  { unfold line, pr_line_scoped, http_url. rewrite !one_line_app.
    rewrite (lower_one_line t Ht), Hscope, Hd, (name_one_line u Hu),
      (nonspace_one_line rest Hr).
    now destruct secure. }
  rewrite parse_notes_one_line by (auto; discriminate).
  rewrite (Process.process_line_pr _ line
             [("desc", strip d); ("type", t)] (strip d)).
  - simpl group. simpl or_empty. cbn [bind].
    rewrite NotesFacts.strip_idem. unfold SKIP_TYPES.
    now destruct (in_set t ["build"; "ci"; "chore"]).
  - rewrite Hline.
    destruct (re_match CHANGELOG_RE line) eqn:E; [|reflexivity].
    assert (H : re_match CHANGELOG_RE line <> None) by congruence.
    apply PrLine.changelog_not_bullet in H. discriminate H.
  - now rewrite Hline.
  - reflexivity.
Qed.

Lemma scope_changes_nothing_witness :
  parse_notes "* feat(ui, dark mode): add toggle by @alice in https://github.com/x/y/pull/7"
  = Ok ([("What's New", ["add toggle"])], None).
Proof.
  exact (proj2 (scope_changes_nothing "feat" (Some "ui, dark mode") "add toggle"
                  "alice" true "github.com/x/y/pull/7"
                  eq_refl ltac:(discriminate) eq_refl eq_refl
                  ltac:(vm_compute; discriminate)
                  eq_refl ltac:(discriminate) eq_refl ltac:(discriminate))).
Defined.

(** X11.  The plain output shows the changelog lines exactly when some
    line of the notes matches the changelog pattern, and then with the
    URL of the last such line: the test [if changelog_url:] never hides
    a URL that was captured. *)
Theorem changelog_block_shown :
  forall (raw tag : string),
    exists (secs : sections) (url : option string),
      parse_notes raw = Ok (secs, url)
      /\ markdown_lines tag secs url
         = ([Layout.md_title tag; ""]
              ++ flat_map (Layout.md_block secs) Layout.HEADINGS
              ++ Layout.md_changelog url)%list
      /\ ((filter is_changelog (splitlines raw) = []
           /\ Layout.md_changelog url = [])
          \/ exists (line u : string),
               last_line (filter is_changelog (splitlines raw)) = Some line
               /\ captured_url line = Some u
               /\ Layout.md_changelog url
                  = ["---"; "**Full Changelog**: " ++ u; ""]).
Proof.
  intros raw tag.
  destruct (LoopFacts.parse_lines_changelog (splitlines raw) [] None)
    as (secs & H & _).
  fold (parse_notes raw) in H. eexists secs, _. split; [exact H|].
  split; [apply Render.markdown_lines_layout|].
  destruct (filter is_changelog (splitlines raw)) as [|x xs] eqn:Ef;
    [left; split; reflexivity | right].
  destruct (last_line (x :: xs)) as [l|] eqn:El.
  - exists l. assert (Hin : In l (filter is_changelog (splitlines raw)))
      by (rewrite Ef; now apply NotesFacts.last_line_in).
    apply filter_In in Hin as [_ Hl]. unfold is_changelog in Hl.
    unfold captured_url.
    destruct (re_match CHANGELOG_RE (strip l)) as [m|] eqn:Hm; [|discriminate].
    destruct (NotesFacts.changelog_match_http _ _ Hm)
      as (secure & rest & -> & _ & _).
    exists (http_url secure rest). repeat split.
  - exfalso. rewrite LoopFacts.last_line_cons in El.
    destruct (last_line xs); discriminate El.
Qed.

(* ================================================================= *)
(** ** The formatter run on its own output *)

Module ReparseFacts.
Import Layout Render PrLine Process AccountFacts NotesFacts ChangelogFacts.

Lemma inert_empty : inert "".
Proof. intros [secs url]. reflexivity. Qed.

(** A line that starts with a character that is neither white space nor
    an asterisk is neither a bullet nor a changelog line. *)
Lemma inert_head c s :
  is_space c = false -> c <> "*"%char -> inert (String c s).
Proof.
  intros Hc Hstar [secs url]. unfold process_line.
  assert (Hs : strip (String c s) = String c (rstrip s)).
  { unfold strip. rewrite (lstrip_nonspace c s Hc).
    apply rstrip_cons_nonspace. exact Hc. }
  rewrite Hs.
  destruct (re_match CHANGELOG_RE (String c (rstrip s))) as [m|] eqn:E1.
  { apply changelog_prefix in E1 as (s' & E). injection E as E _. congruence. }
  destruct (re_match PR_RE (String c (rstrip s))) as [m|] eqn:E2; [|reflexivity].
  apply BulletFacts.pr_match_bullet in E2. simpl in E2.
  destruct (Ascii.eqb_spec c "*"); [congruence|].
  destruct c as [[] [] [] [] [] [] [] []]; try discriminate E2; congruence.
Qed.

Lemma parse_lines_inert ls st : Forall inert ls -> parse_lines ls st = Ok st.
Proof.
  induction 1 as [|l ls Hl _ IH]; [reflexivity|].
  cbn [parse_lines]. rewrite Hl. exact IH.
Qed.

Lemma parse_lines_app a b st :
  parse_lines (a ++ b)%list st = (st' <- parse_lines a st ;; parse_lines b st').
Proof.
  revert st. induction a as [|l a IH]; intros st; [reflexivity|].
  cbn [parse_lines app]. destruct (process_line st l) as [st1|e]; [|reflexivity].
  cbn [bind]. apply IH.
Qed.

(** Splitting what was joined by line feeds. *)
Lemma splitlines_app_lf l rest :
  one_line l = true ->
  splitlines (l ++ Str.LF ++ rest) = l :: splitlines rest.
Proof.
  induction l as [|c l IH]; [reflexivity|].
  unfold one_line. cbn [all]. intros H. apply andb_true_iff in H as [Hc Hl].
  apply negb_true_iff in Hc. cbn [String.append splitlines]. rewrite Hc.
  now rewrite (IH Hl).
Qed.

Lemma parse_joined ls : forall st,
  Forall (fun l => one_line l = true) ls ->
  parse_lines (splitlines (join Str.LF ls)) st = parse_lines ls st.
Proof.
  unfold join. induction ls as [|l ls IH]; intros st H; [reflexivity|].
  inversion H as [|? ? Hl Hls]; subst.
  destruct ls as [|l' ls].
  - cbn [String.concat]. destruct l as [|c l].
    + cbn [splitlines parse_lines]. now rewrite inert_empty.
    + now rewrite splitlines_one_line by (auto; discriminate).
  - change (String.concat Str.LF (l :: l' :: ls))
      with (l ++ Str.LF ++ String.concat Str.LF (l' :: ls)).
    rewrite splitlines_app_lf by exact Hl. cbn [parse_lines].
    destruct (process_line st l) as [st1|e]; [|reflexivity].
    cbn [bind]. now apply IH.
Qed.

Lemma get_in {V : Type} (d : dict V) k v : get d k = Some v -> In (k, v) d.
Proof.
  induction d as [|[k' v'] d IH]; [discriminate|]. simpl.
  destruct (String.eqb_spec k' k) as [->|]; [intros [= ->]; now left|].
  intros H. right. now apply IH.
Qed.

Lemma md_block_lines secs h :
  In h HEADINGS ->
  Forall (fun q => Forall (fun e => one_line e = true) (snd q)) secs ->
  Forall (fun l => one_line l = true /\ inert l) (md_block secs h).
Proof.
  intros Hh Hs. unfold md_block, populated, entries.
  destruct (get secs h) as [[|e es]|] eqn:Eg; try constructor.
  - split; [|now apply inert_head].
    unfold HEADINGS in Hh. simpl in Hh.
    destruct Hh as [<-|[<-|[<-|[<-|[<-|[<-|[<-|[<-|[]]]]]]]]]; reflexivity.
  - apply Forall_app. split.
    + apply get_in in Eg. rewrite Forall_forall in Hs.
      specialize (Hs _ Eg). cbn [snd] in Hs.
      apply Forall_map. eapply Forall_impl; [|exact Hs].
      intros x Hx. split; [exact Hx | now apply inert_head].
    + constructor; [|constructor]. split; [reflexivity | apply inert_empty].
Qed.

(** Parsing the plain output: no entry, and the URL that was shown. *)
Lemma reparse tag secs url :
  one_line tag = true ->
  Forall (fun q => Forall (fun e => one_line e = true) (snd q)) secs ->
  (url = None
   \/ exists secure rest, url = Some (http_url secure rest)
                          /\ all is_nonspace rest = true /\ rest <> "") ->
  parse_notes (format_markdown tag secs url) = Ok ([], url).
Proof.
  intros Htag Hs Hurl. unfold parse_notes, format_markdown.
  rewrite markdown_lines_layout. unfold md_lines.
  assert (Hblocks : Forall (fun l => one_line l = true /\ inert l)
                      (flat_map (md_block secs) HEADINGS)).
  { apply Forall_flat_map, Forall_forall. intros h Hh.
    now apply md_block_lines. }
  assert (Htitle : one_line (md_title tag) = true /\ inert (md_title tag))
    by (split; [exact Htag | now apply inert_head]).
  assert (Hone : Forall (fun l => one_line l = true)
                   ([md_title tag; ""] ++ flat_map (md_block secs) HEADINGS
                      ++ md_changelog url)%list).
  { apply Forall_app. split; [repeat constructor; apply Htitle|].
    apply Forall_app. split.
    - eapply Forall_impl; [|exact Hblocks]. now intros l [Hl _].
    - destruct Hurl as [->|(secure & rest & -> & Hr & Hne)]; [constructor|].
      unfold md_changelog, http_url. repeat constructor.
      unfold one_line. cbn [String.append all].
      apply nonspace_one_line in Hr. unfold one_line in Hr.
      destruct secure; cbn [String.append all]; exact Hr. }
  rewrite (parse_joined _ _ Hone).
  change ([md_title tag; ""] ++ flat_map (md_block secs) HEADINGS
            ++ md_changelog url)%list
    with (md_title tag :: "" :: (flat_map (md_block secs) HEADINGS
                                   ++ md_changelog url))%list.
  cbn [parse_lines]. rewrite (proj2 Htitle). cbn [bind].
  rewrite inert_empty. cbn [bind].
  rewrite parse_lines_app, parse_lines_inert
    by (eapply Forall_impl; [|exact Hblocks]; now intros l [_ Hl]).
  cbn [bind].
  destruct Hurl as [->|(secure & rest & -> & Hr & Hne)]; [reflexivity|].
  unfold md_changelog, http_url. cbn [String.append parse_lines].
  rewrite (inert_head "-" "--" eq_refl ltac:(discriminate)). cbn [bind].
  destruct (PrLine.last_char rest Hne) as (b & c & Er).
  assert (Hc : is_space c = false).
  { apply nonspace_iff. apply (PrLine.all_last is_nonspace b). now rewrite <- Er. }
  set (line := "**Full Changelog**: http" ++ (if secure then "s" else "")
                 ++ "://" ++ rest).
  assert (Hline : strip line = changelog_line " " secure rest "").
  { unfold changelog_line, http_url.
    replace ("**Full Changelog**:" ++ " " ++ ("http"
               ++ (if secure then "s" else "") ++ "://" ++ rest) ++ "")
      with line by (unfold line; rewrite app_empty_r; str_eq).
    unfold line. rewrite Er.
    apply strip_fixed with
      (b := "**Full Changelog**: http" ++ (if secure then "s" else "")
              ++ "://" ++ b) (c := c);
      [reflexivity | exact Hc | str_eq]. }
  assert (Hm : re_match CHANGELOG_RE (strip line)
               = Some [("url", http_url secure rest)])
    by (rewrite Hline; now apply changelog_line_groups).
  match goal with
  | |- context [process_line ?st (String "*" ?s)] =>
      change (process_line st (String "*" s)) with (process_line st line)
  end.
  rewrite (process_line_changelog _ line _ Hm). cbn [bind fst group].
  rewrite inert_empty. reflexivity.
Qed.

(** What [parse_notes] returns: good entries, and a well-formed URL. *)
Lemma parse_notes_summary raw :
  exists (secs : sections) (url : option string),
    parse_notes raw = Ok (secs, url)
    /\ Forall (fun q => Forall (fun e => one_line e = true) (snd q)) secs
    /\ (url = None
        \/ exists secure rest, url = Some (http_url secure rest)
                               /\ all is_nonspace rest = true /\ rest <> "").
Proof.
  destruct (parse_notes_stored raw) as (url & H).
  exists (add_all [] (stored (splitlines raw))), url. split; [exact H|]. split.
  - apply forall_add_all
      with (Q := fun p => In (fst p) HEADINGS /\ good_entry (snd p));
      [| apply stored_good, splitlines_lines | constructor].
    intros k x old [_ (_ & _ & Hx)] [->|Hold]; cbn [snd] in *.
    + constructor; [exact Hx | constructor].
    + apply Forall_app. split; [exact Hold|]. constructor; [exact Hx | constructor].
  - destruct (LoopFacts.parse_lines_changelog (splitlines raw) [] None)
      as (secs' & H' & _).
    assert (E : Ok (add_all [] (stored (splitlines raw)), url)
                = Ok (secs', match last_line (filter is_changelog (splitlines raw)) with
                             | Some l => captured_url l
                             | None => None
                             end))
      by (rewrite <- H; exact H').
    injection E as _ ->.
    destruct (last_line (filter is_changelog (splitlines raw))) as [l|] eqn:El;
      [right | now left].
    apply last_line_in, filter_In in El as [_ Hl].
    unfold is_changelog in Hl. unfold captured_url.
    destruct (re_match CHANGELOG_RE (strip l)) as [m|] eqn:Hm; [|discriminate].
    destruct (changelog_match_http _ _ Hm) as (secure & rest & -> & Hr & Hne).
    now exists secure, rest.
Qed.

End ReparseFacts.

(** X12.  The formatter does not read its own output as notes: parsing
    the plain output made from any notes, under a tag of one line, finds
    no entry at all, and finds the changelog URL again. *)
Theorem markdown_parsed_again :
  forall (raw tag : string),
    one_line tag = true ->
    exists (secs : sections) (url : option string),
      parse_notes raw = Ok (secs, url)
      /\ parse_notes (format_markdown tag secs url) = Ok ([], url).
Proof.
  intros raw tag Htag.
  destruct (ReparseFacts.parse_notes_summary raw)
    as (secs & url & H & Hgood & Hurl).
  exists secs, url. split; [exact H|].
  now apply ReparseFacts.reparse.
Qed.

Lemma markdown_parsed_again_witness :
  exists (secs : sections) (url : option string),
    parse_notes ("* feat: add X" ++ Str.LF ++ "**Full Changelog**: https://u")
    = Ok (secs, url)
    /\ parse_notes (format_markdown "v2.0.0" secs url) = Ok ([], url).
Proof.
  exact (markdown_parsed_again
           ("* feat: add X" ++ Str.LF ++ "**Full Changelog**: https://u")
           "v2.0.0" eq_refl).
Defined.

(* ================================================================= *)
(** ** The examples of the description, run *)

Module Examples.

Example skip_chore :
  parse_notes "* chore: bump deps" = Ok ([], None).
Proof. reflexivity. Qed.

Example scoped_feature :
  parse_notes "* feat(ui): add dark mode by @alice in https://github.com/x/y/pull/1"
  = Ok ([("What's New", ["add dark mode"])], None).
Proof. reflexivity. Qed.

Example untyped_line :
  parse_notes "* something weird without type by @bob"
  = Ok ([("Other", ["something weird without type"])], None).
Proof. reflexivity. Qed.

Example prose_and_blank_lines :
  parse_notes ("## What's Changed" ++ Str.LF ++ Str.LF ++ "  " ++ Str.LF
               ++ "feat: x" ++ Str.LF)
  = Ok ([], None).
Proof. reflexivity. Qed.

Example changelog_only :
  parse_notes "**Full Changelog**: https://github.com/x/y/compare/v1...v2"
  = Ok ([], Some "https://github.com/x/y/compare/v1...v2").
Proof. reflexivity. Qed.

Example two_changelog_lines :
  parse_notes ("**Full Changelog**: https://a" ++ Str.LF ++ "* fix: b" ++ Str.LF
               ++ "**Full Changelog**: https://c")
  = Ok ([("Fixes", ["b"])], Some "https://c").
Proof. reflexivity. Qed.

Example entries_keep_their_order :
  parse_notes ("* fix: one" ++ Str.LF ++ "* feat: two" ++ Str.LF
               ++ "* fix: one" ++ Str.LF)
  = Ok ([("Fixes", ["one"; "one"]); ("What's New", ["two"])], None).
Proof. reflexivity. Qed.

Example run_markdown :
  main ["format-release-notes.py"; "notes.md"; "v2.0.0"]
    (fun _ => Ok ("* fix: one" ++ Str.LF ++ "* feat: add X" ++ Str.LF
                  ++ "**Full Changelog**: https://u" ++ Str.LF))
  = Exit 0
      ("## Brewy v2.0.0" ++ Str.LF ++ Str.LF
       ++ "### What's New" ++ Str.LF ++ "- add X" ++ Str.LF ++ Str.LF
       ++ "### Fixes" ++ Str.LF ++ "- one" ++ Str.LF ++ Str.LF
       ++ "---" ++ Str.LF ++ "**Full Changelog**: https://u" ++ Str.LF
       ++ Str.LF)
      "".
Proof. reflexivity. Qed.

Example run_html :
  main ["format-release-notes.py"; "notes.md"; "v2.0.0"; "--html"]
    (fun _ => Ok ("* feat: add <X> & Y" ++ Str.LF
                  ++ "**Full Changelog**: https://u" ++ Str.LF))
  = Exit 0
      ("<h2>What&#x27;s New</h2>" ++ Str.LF ++ "<ul>" ++ Str.LF
       ++ "  <li>add &lt;X&gt; &amp; Y</li>" ++ Str.LF ++ "</ul>" ++ Str.LF)
      "".
Proof. reflexivity. Qed.

Example run_missing_file :
  main ["format-release-notes.py"; "notes.md"; "v2.0.0"]
    (fun _ => Raise "FileNotFoundError")
  = Uncaught "FileNotFoundError".
Proof. reflexivity. Qed.

End Examples.
